(** * Verification of the flight-delay aggregation core of
      UseCase2_DeltaBusinessCase.py

    A DataFrame is modelled as a list of rows (records of the columns the
    functions read).  pandas float64 results are modelled by [num]: exact
    rationals together with the IEEE infinities and NaN (no rounding).  The
    [groupby] of pandas (default [sort=True]) is modelled as: distinct keys,
    sorted with the key order, each with the rows of that key. *)

From Stdlib Require Import List String Ascii ZArith QArith Lia Bool.
From Stdlib Require Import Sorting.Permutation Sorting.Sorted.
Import ListNotations.

(** ** Data model *)

(** float64 values without rounding *)
Inductive num : Type :=
| Fin (q : Q)
| PInf
| NInf
| NaN.

(** the [flight_date] cell: the raw CSV text, or a datetime64 value
    (days since 1970-01-01) once [pd.to_datetime] has been applied *)
Inductive date_cell : Type :=
| DStr (s : string)
| DTs (d : Z).

(** one row of [flights_df] (the columns read by the functions verified here) *)
Record flight : Type := mkFlight {
  flight_date : date_cell;
  hour : option Z;            (** column added by [extract_hour]; [None] is NaN *)
  airline : string;
  dep_iata : string;
  dep_airport : string;
  arr_iata : string;
  arr_airport : string;
  arr_country : string;
  dep_delay : Q;
  flight_status : string
}.

Definition frame := list flight.

(** ** float64 arithmetic *)

Definition Qltb (a b : Q) : bool := negb (Qle_bool b a).

Definition num_div (a b : Q) : num :=
  if Qeq_bool b 0 then
    (if Qeq_bool a 0 then NaN else if Qle_bool 0 a then PInf else NInf)
  else Fin (a / b).

Definition num_mul (x : num) (c : Q) : num :=
  match x with
  | Fin q => Fin (q * c)
  | PInf => if Qeq_bool c 0 then NaN else if Qle_bool 0 c then PInf else NInf
  | NInf => if Qeq_bool c 0 then NaN else if Qle_bool 0 c then NInf else PInf
  | NaN => NaN
  end.

(** [c - x] *)
Definition num_rsub (c : Q) (x : num) : num :=
  match x with
  | Fin q => Fin (c - q)
  | PInf => NInf
  | NInf => PInf
  | NaN => NaN
  end.

Definition num_add (x y : num) : num :=
  match x, y with
  | Fin a, Fin b => Fin (a + b)
  | NaN, _ | _, NaN => NaN
  | PInf, NInf | NInf, PInf => NaN
  | PInf, _ | _, PInf => PInf
  | NInf, _ | _, NInf => NInf
  end.

(** [x == c] for a finite constant [c] *)
Definition num_eqQ (x : num) (c : Q) : bool :=
  match x with Fin q => Qeq_bool q c | _ => false end.

(** [x > c] for a finite constant [c] *)
Definition num_gtQ (x : num) (c : Q) : bool :=
  match x with Fin q => Qltb c q | PInf => true | _ => false end.

Definition qnat (n : nat) : Q := inject_Z (Z.of_nat n).

(** ** Sorting (a stable sort; [le a b] means [a] may come before [b]) *)

Fixpoint insert_by {A : Type} (le : A -> A -> bool) (x : A) (l : list A)
  : list A :=
  match l with
  | [] => [x]
  | y :: t => if le x y then x :: l else y :: insert_by le x t
  end.

Fixpoint isort {A : Type} (le : A -> A -> bool) (l : list A) : list A :=
  match l with
  | [] => []
  | x :: t => insert_by le x (isort le t)
  end.

(** ** Row filters shared by the aggregators *)

(** [(status != "cancelled") & (status != "diverted")] *)
Definition operational (r : flight) : bool :=
  negb (String.eqb (flight_status r) "cancelled")
  && negb (String.eqb (flight_status r) "diverted").

(** [(airline == a) & operational] *)
Definition airline_operational (a : string) (r : flight) : bool :=
  String.eqb (airline r) a && operational r.

(** ** groupby *)

Section GroupBy.
Context {K : Type}.
Variable K_eq_dec : forall x y : K, {x = y} + {x <> y}.
Variable key_leb : K -> K -> bool.

Fixpoint distinct (l : list K) : list K :=
  match l with
  | [] => []
  | k :: t =>
      if existsb (fun k' => if K_eq_dec k k' then true else false) t
      then distinct t else k :: distinct t
  end.

(** the group keys, in pandas' sorted order *)
Definition group_keys {R : Type} (key : R -> K) (rows : list R) : list K :=
  isort key_leb (distinct (map key rows)).

Definition group_of {R : Type} (key : R -> K) (k : K) (rows : list R)
  : list R :=
  filter (fun r => if K_eq_dec (key r) k then true else false) rows.
End GroupBy.

(** ** aggregate_delay_metric *)

Record metric_row (K : Type) : Type := mkMetric {
  m_key : K;
  ontime_count : nat;
  total_flights : nat;
  pct_ontime : num;
  pct_delay : num
}.
Arguments mkMetric {K}.
Arguments m_key {K}.
Arguments ontime_count {K}.
Arguments total_flights {K}.
Arguments pct_ontime {K}.
Arguments pct_delay {K}.

(** [(flights_copy["dep_delay"] < 15).astype(int)] *)
Definition on_time (r : flight) : nat :=
  if Qltb (dep_delay r) 15 then 1 else 0.

(** [if arr_iata: flights_copy = flights_copy[flights_copy["arr_iata"].isin(arr_iata)]]
    ([None] and the empty list are falsy) *)
Definition arr_filter (arr : option (list string)) (rows : frame) : frame :=
  match arr with
  | None | Some [] => rows
  | Some l => filter (fun r => existsb (String.eqb (arr_iata r)) l) rows
  end.

Section DelayMetric.
Context {K : Type}.
Variable K_eq_dec : forall x y : K, {x = y} + {x <> y}.
Variable key_leb : K -> K -> bool.
(** [groupby_col]: the tuple of grouping columns of a row *)
Variable key : flight -> K.

Definition metric_of (k : K) (rows : frame) : metric_row K :=
  let g := group_of K_eq_dec key k rows in
  let oc := fold_right (fun r acc => (on_time r + acc)%nat) 0%nat g in
  (* [("airline", "count")]: the airline column is never null *)
  let tf := List.length g in
  let po := num_mul (num_div (qnat oc) (qnat tf)) 100 in
  mkMetric k oc tf po (num_rsub 100 po).

Definition aggregate_delay_metric (flights_df : frame)
    (arr : option (list string)) : list (metric_row K) :=
  let flights_copy := arr_filter arr (filter operational flights_df) in
  map (fun k => metric_of k flights_copy)
      (group_keys K_eq_dec key_leb key flights_copy).
End DelayMetric.

(** ** peak_hour_delays (on a frame that went through [extract_hour]) *)

(** [np.where(arr_country == "US", "Domestic", "International")] *)
Definition country_group (r : flight) : string :=
  if String.eqb (arr_country r) "US" then "Domestic" else "International".

Definition hour_group_leb (a b : Z * string) : bool :=
  Z.ltb (fst a) (fst b) || (Z.eqb (fst a) (fst b) && String.leb (snd a) (snd b)).

Definition hour_group_eq_dec (a b : Z * string) : {a = b} + {a <> b}.
Proof. decide equality; [apply string_dec | apply Z.eq_dec]. Defined.

(** [groupby(keys).size()]: rows whose key has a NaN ([None]) are dropped *)
Definition group_size {K : Type} (dec : forall x y : K, {x = y} + {x <> y})
  (leb : K -> K -> bool) (keys : list K) : list (K * nat) :=
  map (fun k => (k, List.length (group_of dec (fun x => x) k keys)))
      (group_keys dec leb (fun x => x) keys).

Definition some_keys {A B : Type} (f : A -> option B) (l : list A) : list B :=
  fold_right (fun a acc => match f a with Some b => b :: acc | None => acc end)
    [] l.

(** the rows counted as delayed: [flights_copy[flights_copy["dep_delay"] > 15]] *)
Definition peak_delayed_rows (a : string) (flights_df : frame) : frame :=
  filter (fun r => Qltb 15 (dep_delay r)) (filter (airline_operational a) flights_df).

(** the two tables drawn by [peak_hour_delays]: delayed counts per
    (hour, country_group) and total counts per hour *)
Definition peak_hour_delays (a : string) (flights_df : frame)
  : list ((Z * string) * nat) * list (Z * nat) :=
  let flights_copy := filter (airline_operational a) flights_df in
  let delayed_flights := peak_delayed_rows a flights_df in
  let grouped_counts :=
    group_size hour_group_eq_dec hour_group_leb
      (some_keys (fun r => option_map (fun h => (h, country_group r)) (hour r))
         delayed_flights) in
  let total_flights_by_hour :=
    group_size Z.eq_dec Z.leb (some_keys hour flights_copy) in
  (grouped_counts, total_flights_by_hour).

(** ** pd.cut, as used by delays_heatmap *)

(** [b < x] for a bin edge [b] *)
Definition num_ltQ (b : num) (x : Q) : bool :=
  match b with Fin q => Qltb q x | NInf => true | PInf | NaN => false end.

(** [x <= b] for a bin edge [b] *)
Definition num_geQ (b : num) (x : Q) : bool :=
  match b with Fin q => Qle_bool x q | PInf => true | NInf | NaN => false end.

(** [bins = [-float("inf"), 0, 15, 30, 60, 120, float("inf")]] *)
Definition bins : list num :=
  [NInf; Fin 0; Fin 15; Fin 30; Fin 60; Fin 120; PInf].

Definition labels : list string :=
  ["Early/On time"%string; "0–15 min"%string; "15–30 min"%string;
   "30–60 min"%string; "1–2 hrs"%string; "2+ hrs"%string].

(** [bins.searchsorted(x, side="left")]: the first index whose edge is not
    below [x] *)
Fixpoint searchsorted_left (edges : list num) (x : Q) : nat :=
  match edges with
  | [] => 0
  | b :: t => if num_ltQ b x then S (searchsorted_left t x) else 0
  end.

(** [pd.cut(x, bins=edges, labels=labs, right=True)] (no [include_lowest]):
    index [0] and index [len(bins)] are NaN ([None]) *)
Definition cut (edges : list num) (labs : list string) (x : Q) : option string :=
  let i := searchsorted_left edges x in
  if Nat.eqb i 0 || Nat.eqb i (List.length edges) then None
  else nth_error labs (i - 1).

Definition delay_bin (r : flight) : option string :=
  cut bins labels (dep_delay r).

(** bin [j] is the interval [(bins[j], bins[j+1]]] *)
Definition in_bin (j : nat) (x : Q) : bool :=
  num_ltQ (nth j bins NaN) x && num_geQ (nth (S j) bins NaN) x.

(** ** delays_heatmap: the proportion matrix handed to [px.imshow] *)

Record heat_matrix (K : Type) : Type := mkHeat {
  h_index : list K;             (** [airline_delay_proportions.index] *)
  h_columns : list string;      (** [airline_delay_proportions.columns] *)
  h_values : list (list num)    (** [airline_delay_proportions.values] *)
}.
Arguments mkHeat {K}.
Arguments h_index {K}.
Arguments h_columns {K}.
Arguments h_values {K}.

Definition has_bin (l : string) (r : flight) : bool :=
  match delay_bin r with Some l' => String.eqb l' l | None => false end.

Definition sum_nat (l : list nat) : nat := fold_right Nat.add 0%nat l.

Section Heatmap.
Context {K : Type}.
Variable K_eq_dec : forall x y : K, {x = y} + {x <> y}.
Variable key_leb : K -> K -> bool.
(** [var]: the categorical column compared with the delay bins *)
Variable var : flight -> K.

(** [groupby([var, "delay_bin"], observed=False).size().unstack(fill_value=0)]:
    one row per observed value of [var] (rows with a NaN bin are dropped),
    one column per category of [delay_bin], in category order *)
Definition delay_counts (rows : frame) : list (K * list nat) :=
  let binned := filter (fun r => if delay_bin r then true else false) rows in
  map (fun k =>
         let g := group_of K_eq_dec var k binned in
         (k, map (fun l => List.length (filter (has_bin l) g)) labels))
      (group_keys K_eq_dec key_leb var binned).

(** [delay_counts.div(delay_counts.sum(axis=1), axis=0)] *)
Definition normalize (counts : list nat) : list num :=
  map (fun c => num_div (qnat c) (qnat (sum_nat counts))) counts.

Definition delays_heatmap (flights_df : frame) (a : string) : heat_matrix K :=
  let flights_copy := filter (airline_operational a) flights_df in
  let dc := delay_counts flights_copy in
  mkHeat (map fst dc) labels (map (fun kc => normalize (snd kc)) dc).
End Heatmap.

Definition num_sum (l : list num) : num := fold_right num_add (Fin 0) l.

(** ** relative_delay *)

(** float64 division of two float64 values (signed zeros not modelled) *)
Definition num_divn (x y : num) : num :=
  match x, y with
  | Fin a, Fin b => num_div a b
  | NaN, _ | _, NaN => NaN
  | (PInf | NInf), (PInf | NInf) => NaN
  | Fin _, (PInf | NInf) => Fin 0
  | PInf, Fin b => if Qle_bool 0 b then PInf else NInf
  | NInf, Fin b => if Qle_bool 0 b then NInf else PInf
  end.

(** [Series.mean()]: NaN on an empty series *)
Definition mean (l : list Q) : num :=
  num_div (fold_right Qplus 0 l) (qnat (List.length l)).

(** [global_mean = flights_copy["dep_delay"].mean()] *)
Definition global_mean (flights_df : frame) (a : string) : num :=
  mean (map dep_delay (filter (airline_operational a) flights_df)).

(** the rows [(dep_airport, mean_delay, delay_ratio)] of [mean_delay_by_airport] *)
Definition relative_delay (flights_df : frame) (a : string)
  : list (string * num * num) :=
  let flights_copy := filter (airline_operational a) flights_df in
  let gm := mean (map dep_delay flights_copy) in
  map (fun k =>
         let md := mean (map dep_delay (group_of string_dec dep_airport k flights_copy)) in
         (k, md, num_divn md gm))
      (group_keys string_dec String.leb dep_airport flights_copy).

(** The spec's scenario for [relative_delay]: airport P with mean delay 20,
    airport Q with mean delay 5, global mean 10. *)
Definition airport_row (ap : string) (d : Q) : flight :=
  mkFlight (DTs 19723) (Some 8%Z) "Delta Air Lines" ap ap "JFK"
    "John F. Kennedy International" "US" d "normal".

Definition relative_scenario : frame :=
  [airport_row "P" 20; airport_row "Q" 5; airport_row "Q" 5].

(** ** top_delayed_routes *)

(** [x >= y] on float64 (every comparison with NaN is false) *)
Definition num_geb (x y : num) : bool :=
  match x, y with
  | Fin a, Fin b => Qle_bool b a
  | NaN, _ | _, NaN => false
  | PInf, _ | _, NInf => true
  | _, _ => false
  end.

(** [x > y] on float64 *)
Definition num_gtb (x y : num) : bool := num_geb x y && negb (num_geb y x).

Definition route_key_t : Type := (string * string * string * string)%type.

Definition route_key (r : flight) : route_key_t :=
  (dep_iata r, dep_airport r, arr_iata r, arr_airport r).

Definition route_key_eq_dec (x y : route_key_t) : {x = y} + {x <> y}.
Proof. repeat decide equality; apply string_dec. Defined.

Definition lex (c : comparison) (k : bool) : bool :=
  match c with Lt => true | Gt => false | Eq => k end.

(** the lexicographic order of the group keys *)
Definition route_key_leb (x y : route_key_t) : bool :=
  let '(a1, a2, a3, a4) := x in
  let '(b1, b2, b3, b4) := y in
  lex (String.compare a1 b1) (lex (String.compare a2 b2)
    (lex (String.compare a3 b3) (String.leb a4 b4))).

Record route : Type := mkRoute {
  r_key : route_key_t;          (** dep_iata, dep_airport, arr_iata, arr_airport *)
  flight_count : nat;
  delay_count : nat;
  delay_rate : num
}.

(** [(flights_copy["dep_delay"] > 60).astype(int)] *)
Definition is_delayed (r : flight) : nat :=
  if Qltb 60 (dep_delay r) then 1 else 0.

(** the airline, status and destination-country filters *)
Definition route_scope (flights_df : frame) (a : string) (domestic : bool)
  : frame :=
  filter (fun r => if domestic then String.eqb (arr_country r) "US"
                   else negb (String.eqb (arr_country r) "US"))
    (filter (airline_operational a) flights_df).

(** [route_df]: one row per route; [("flight_date", "count")] counts every
    row of the group since [flight_date] is never null *)
Definition route_table (rows : frame) : list route :=
  map (fun k =>
         let g := group_of route_key_eq_dec route_key k rows in
         let fc := List.length g in
         let dc := sum_nat (map is_delayed g) in
         mkRoute k fc dc (num_div (qnat dc) (qnat fc)))
      (group_keys route_key_eq_dec route_key_leb route_key rows).

(** [Series.median()] of counts: NaN when empty, the middle value, or the
    mean of the two middle values *)
Definition median (l : list nat) : num :=
  let s := isort Nat.leb l in
  let n := List.length s in
  match n with
  | O => NaN
  | S _ =>
      if Nat.even n
      then Fin ((qnat (nth (Nat.div n 2 - 1) s 0%nat)
                 + qnat (nth (Nat.div n 2) s 0%nat)) / 2)
      else Fin (qnat (nth (Nat.div n 2) s 0%nat))
  end.

(** [flight_count > median_flight_count] *)
Definition count_gt (m : num) (fc : nat) : bool :=
  match m with
  | Fin q => Qltb q (qnat fc)
  | NInf => true
  | PInf | NaN => false
  end.

(** [route_df[route_df["flight_count"] > median_flight_count]] *)
Definition routes_above_median (rd : list route) : list route :=
  filter (fun rt => count_gt (median (map flight_count rd)) (flight_count rt)) rd.

(** [sort_values(by="delay_rate", ascending=False)] *)
Definition rate_ge (x y : route) : bool := num_geb (delay_rate x) (delay_rate y).

(** [nlargest(n, col, keep="all")]: with at most [n] rows, all rows sorted
    descending; otherwise every row whose value is at least the [n]-th
    largest value, sorted descending (stable) *)
Definition nlargest {A : Type} (n : nat) (ge : A -> A -> bool) (l : list A)
  : list A :=
  let s := isort ge l in
  if Nat.leb (List.length s) n then s
  else match nth_error s (n - 1) with
       | Some kth => filter (fun x => ge x kth) s
       | None => s
       end.

Definition top_delayed_routes (flights_df : frame) (a : string)
  (domestic : bool) : list route :=
  let route_df := route_table (route_scope flights_df a domestic) in
  let sorted := isort rate_ge (routes_above_median route_df) in
  nlargest 10 rate_ge sorted.

(** ** Dates: pd.to_datetime on the [flight_date] column *)

Section Dates.
Local Open Scope Z_scope.

Definition digit (c : ascii) : option Z :=
let n := nat_of_ascii c in
if (48 <=? n)%nat && (n <=? 57)%nat then Some (Z.of_nat (n - 48)) else None.

Fixpoint digits (s : string) (acc : Z) : option Z :=
match s with
| EmptyString => Some acc
| String c t =>
    match digit c with Some d => digits t (10 * acc + d) | None => None end
end.

Definition is_leap (y : Z) : bool :=
(Z.eqb (y mod 4) 0 && negb (Z.eqb (y mod 100) 0)) || Z.eqb (y mod 400) 0.

Definition days_in_month (y m : Z) : Z :=
if Z.eqb m 2 then (if is_leap y then 29 else 28)
else if Z.eqb m 4 || Z.eqb m 6 || Z.eqb m 9 || Z.eqb m 11 then 30 else 31.

(** days since 1970-01-01 of a proleptic Gregorian date *)
Definition days_from_civil (y m d : Z) : Z :=
let y' := if Z.leb m 2 then y - 1 else y in
let era := y' / 400 in
let yoe := y' - era * 400 in
let doy := (153 * (if Z.ltb 2 m then m - 3 else m + 9) + 2) / 5 + d - 1 in
let doe := yoe * 365 + yoe / 4 - yoe / 100 + doy in
era * 146097 + doe - 719468.

(** [pd.to_datetime] on an ISO ["YYYY-MM-DD"] text; [None] stands for the
  exception pandas raises on a text it cannot parse (only the ISO form
  of the data file is modelled) *)
Definition parse_iso_date (s : string) : option Z :=
match s with
| String y1 (String y2 (String y3 (String y4 (String "-"%char
    (String m1 (String m2 (String "-"%char (String d1 (String d2 EmptyString))))))))) =>
    match digits (String y1 (String y2 (String y3 (String y4 EmptyString)))) 0,
          digits (String m1 (String m2 EmptyString)) 0,
          digits (String d1 (String d2 EmptyString)) 0 with
    | Some y, Some m, Some d =>
        if Z.leb 1 m && Z.leb m 12 && Z.leb 1 d && Z.leb d (days_in_month y m)
        then Some (days_from_civil y m d) else None
    | _, _, _ => None
    end
| _ => None
end.

Definition to_datetime_cell (c : date_cell) : option date_cell :=
match c with
| DTs d => Some (DTs d)
| DStr s => option_map DTs (parse_iso_date s)
end.

(** [pd.to_datetime(flights_df["flight_date"])] written back into the column:
  the whole column is converted, or the call raises ([None]) *)
Fixpoint to_datetime_column (rows : frame) : option frame :=
match rows with
| [] => Some []
| r :: t =>
    match to_datetime_cell (flight_date r), to_datetime_column t with
    | Some c, Some t' =>
        Some (mkFlight c (hour r) (airline r) (dep_iata r) (dep_airport r)
                (arr_iata r) (arr_airport r) (arr_country r) (dep_delay r)
                (flight_status r) :: t')
    | _, _ => None
    end
end.

(** [select_date(flights_df, start_date, end_date)] with the dates as day
  numbers.  The caller's DataFrame is a shared object: the result is the
  state of the caller's frame after the call, and the returned frame.
  [None] is the exception raised by [pd.to_datetime]. *)
Definition select_date (flights_df : frame) (start_date end_date : Z)
: option (frame * frame) :=
match to_datetime_column flights_df with
| None => None
| Some converted =>
    (* flights_df["flight_date"] = pd.to_datetime(flights_df["flight_date"]) *)
    let keep r :=
      match flight_date r with
      | DTs d => if Z.eqb start_date end_date then Z.eqb d start_date
                 else Z.leb start_date d && Z.leb d end_date
      | DStr _ => false
      end in
    Some (converted, filter keep converted)
end.

End Dates.

(** ** flight_volume_by_day *)

Definition weekday_order : list string :=
  ["Monday"%string; "Tuesday"%string; "Wednesday"%string; "Thursday"%string;
   "Friday"%string; "Saturday"%string; "Sunday"%string].

(** [Series.dt.day_name()] of a day number (1970-01-01 was a Thursday) *)
Definition day_name (d : Z) : string :=
  nth (Z.to_nat ((d + 3) mod 7)) weekday_order ""%string.

(** the [.dt] accessor raises on a column that is not datetime *)
Definition day_name_cell (c : date_cell) : option string :=
  match c with DTs d => Some (day_name d) | DStr _ => None end.

(** the lookups of pycountry and pycountry_convert; [None] is the
    exception each one raises on an unknown key *)
Record country_db : Type := mkCountryDb {
  countries_lookup_alpha_2 : string -> option string;
  country_alpha2_to_continent_code : string -> option string;
  convert_continent_code_to_continent_name : string -> option string
}.

Definition ascii_lower (c : ascii) : ascii :=
  let n := nat_of_ascii c in
  if (65 <=? n)%nat && (n <=? 90)%nat then ascii_of_nat (n + 32) else c.

(** [str.lower()] on ASCII text *)
Fixpoint lower (s : string) : string :=
  match s with
  | EmptyString => EmptyString
  | String c t => String (ascii_lower c) (lower t)
  end.

(** [country_to_continent]: every failure inside the [try] is caught by the
    bare [except] and mapped to ["other"] *)
Definition country_to_continent (db : country_db) (country_name : string)
  : string :=
  match countries_lookup_alpha_2 db country_name with
  | None => "other"
  | Some country_alpha2 =>
      match country_alpha2_to_continent_code db country_alpha2 with
      | None => "other"
      | Some continent_code =>
          match convert_continent_code_to_continent_name db continent_code with
          | None => "other"
          | Some continent_name =>
              if String.eqb country_name "US" then "usa"
              else lower continent_name
          end
      end
  end.

(** the rows left after the airline, status and region filters *)
Definition region_rows (db : country_db) (flights_df : frame) (a region : string)
  : frame :=
  let flights_copy := filter (airline_operational a) flights_df in
  if String.eqb region "world" then flights_copy
  else filter (fun r => String.eqb (country_to_continent db (arr_country r)) region)
         flights_copy.

Fixpoint map_option {A B : Type} (f : A -> option B) (l : list A)
  : option (list B) :=
  match l with
  | [] => Some []
  | x :: t =>
      match f x, map_option f t with
      | Some y, Some t' => Some (y :: t')
      | _, _ => None
      end
  end.

(** what [flight_volume_by_day] hands to plotly: the rows of [grouped_df]
    ([departure_day_of_week], [flights_count]), the categories of the
    categorical weekday column, and the x-axis [categoryarray] *)
Record volume_figure : Type := mkVolume {
  grouped_df : list (string * nat);
  weekday_categories : list string;
  x_categoryarray : list string
}.

Definition flight_volume_by_day (db : country_db) (flights_df : frame)
  (a region : string) : option volume_figure :=
  match map_option (fun r => day_name_cell (flight_date r))
          (region_rows db flights_df a region) with
  | None => None
  | Some days =>
      Some (mkVolume (group_size string_dec String.leb days)
              weekday_order weekday_order)
  end.

(** ** cancelled_flights: the table handed to [px.pie] *)

Definition airport_key_eq_dec (x y : string * string) : {x = y} + {x <> y}.
Proof. decide equality; apply string_dec. Defined.

Definition airport_key_leb (x y : string * string) : bool :=
  lex (String.compare (fst x) (fst y)) (String.leb (snd x) (snd y)).

(** [cancelled_flights[...].groupby(["dep_iata", "dep_airport"])["flight_date"]
    .count().reset_index(name="flight_count").sort_values(by="flight_count",
    ascending=False)]; [flight_date] is never null.  The sort is not stable
    in pandas: only the order of the counts, not that of ties, is relied on *)
Definition cancelled_counts (flights_df : frame) (a : string)
  : list ((string * string) * nat) :=
  let cancelled := filter (fun r => String.eqb (flight_status r) "cancelled"
                                    && String.eqb (airline r) a) flights_df in
  isort (fun x y => Nat.leb (snd y) (snd x))
    (group_size airport_key_eq_dec airport_key_leb
       (map (fun r => (dep_iata r, dep_airport r)) cancelled)).

(** ** main: the three header metrics shown above the charts *)

(** [len(filtered_df[filtered_df["airline"] == a])], then the cancelled and
    the diverted flights of the airline *)
Definition header_metrics (filtered_df : frame) (a : string) : nat * nat * nat :=
  (List.length (filter (fun r => String.eqb (airline r) a) filtered_df),
   List.length (filter (fun r => String.eqb (flight_status r) "cancelled"
                                 && String.eqb (airline r) a) filtered_df),
   List.length (filter (fun r => String.eqb (flight_status r) "diverted"
                                 && String.eqb (airline r) a) filtered_df)).

(** ** Sample inputs *)

(** a small instance of the pycountry / pycountry_convert tables *)
Definition sample_country_db : country_db :=
  mkCountryDb
    (fun s => if String.eqb s "US" then Some "US"%string
              else if String.eqb s "FR" then Some "FR"%string else None)
    (fun a2 => if String.eqb a2 "US" then Some "NA"%string
               else if String.eqb a2 "FR" then Some "EU"%string else None)
    (fun cc => if String.eqb cc "AF" then Some "Africa"%string
               else if String.eqb cc "AN" then Some "Antarctica"%string
               else if String.eqb cc "AS" then Some "Asia"%string
               else if String.eqb cc "EU" then Some "Europe"%string
               else if String.eqb cc "NA" then Some "North America"%string
               else if String.eqb cc "OC" then Some "Oceania"%string
               else if String.eqb cc "SA" then Some "South America"%string
               else None).

Definition dated_row (c : date_cell) (country : string) : flight :=
  mkFlight c (Some 8%Z) "Delta Air Lines" "ATL"
    "Hartsfield-Jackson Atlanta International" "CDG" "Paris Charles de Gaulle"
    country 10 "normal".

(** one flight on Monday 2024-01-01 and one on Friday 2024-01-05 *)
Definition weekday_df : frame :=
  [dated_row (DTs 19723) "US"; dated_row (DTs 19727) "FR"].

(** the table as [load_data] reads it: [flight_date] is still text *)
Definition raw_df : frame := [dated_row (DStr "2024-01-01") "US"].

(** three routes out of P, Q and R to JFK: three flights on the first
    (two of them delayed by 90 minutes), one on each of the others *)
Definition routes_sample : frame :=
  [airport_row "P" 90; airport_row "P" 90; airport_row "P" 5;
   airport_row "Q" 5; airport_row "R" 5].

(** position in the Monday..Sunday order *)
Fixpoint index_of (s : string) (l : list string) : nat :=
  match l with
  | [] => 0%nat
  | x :: t => if String.eqb x s then 0%nat else S (index_of s t)
  end.

Definition weekday_rank (s : string) : nat := index_of s weekday_order.

(** ** Orders used in the proofs about top_delayed_routes *)

Definition key_ge {A : Type} (key : A -> Q) (x y : A) : bool :=
  Qle_bool (key y) (key x).

Definition key_desc {A : Type} (key : A -> Q) (x y : A) : Prop := key y <= key x.

(** the elements of [l] ranked strictly above [x] *)
Definition above {A : Type} (key : A -> Q) (x : A) (l : list A) : list A :=
  filter (fun s => Qltb (key x) (key s)) l.

Definition rate_key (rt : route) : Q :=
  match delay_rate rt with Fin q => q | _ => 0 end.

Definition finite_rate (rt : route) : Prop := exists q, delay_rate rt = Fin q.

(** ** Generic facts about sorting and grouping *)

Lemma insert_by_perm {A : Type} (le : A -> A -> bool) (x : A) (l : list A) :
  Permutation (insert_by le x l) (x :: l).
Proof.
  induction l as [|y t IH]; simpl; [constructor; constructor|].
  destruct (le x y); [reflexivity|].
  rewrite IH. apply perm_swap.
Qed.

Lemma isort_perm {A : Type} (le : A -> A -> bool) (l : list A) :
  Permutation (isort le l) l.
Proof.
  induction l as [|x t IH]; simpl; [constructor|].
  rewrite insert_by_perm. now constructor.
Qed.

Lemma distinct_In {K : Type} (dec : forall x y : K, {x = y} + {x <> y})
  (l : list K) (k : K) : In k (distinct dec l) <-> In k l.
Proof.
  induction l as [|a t IH]; simpl; [tauto|].
  destruct (existsb _ t) eqn:E; simpl; rewrite IH; split; try tauto.
  intros [<-|H]; [|exact H].
  apply existsb_exists in E as [k' [Hk' Hd]].
  destruct (dec a k'); [subst; exact Hk'|discriminate].
Qed.

Lemma group_keys_In {K R : Type} (dec : forall x y : K, {x = y} + {x <> y})
  (leb : K -> K -> bool) (key : R -> K) (rows : list R) (k : K) :
  In k (group_keys dec leb key rows) <-> exists r, In r rows /\ key r = k.
Proof.
  unfold group_keys. split.
  - intro H. apply (Permutation_in _ (isort_perm _ _)) in H.
    apply distinct_In, in_map_iff in H as [r [<- Hr]]. eauto.
  - intros [r [Hr <-]].
    apply (Permutation_in _ (Permutation_sym (isort_perm _ _))).
    apply distinct_In, in_map. exact Hr.
Qed.

Lemma group_of_In {K R : Type} (dec : forall x y : K, {x = y} + {x <> y})
  (key : R -> K) (k : K) (rows : list R) (r : R) :
  In r (group_of dec key k rows) <-> In r rows /\ key r = k.
Proof.
  unfold group_of. rewrite filter_In.
  destruct (dec (key r) k); intuition congruence.
Qed.

Lemma group_of_nonempty {K R : Type} (dec : forall x y : K, {x = y} + {x <> y})
  (leb : K -> K -> bool) (key : R -> K) (rows : list R) (k : K) :
  In k (group_keys dec leb key rows) ->
  (1 <= List.length (group_of dec key k rows))%nat.
Proof.
  intro H. apply group_keys_In in H as [r Hr].
  apply (group_of_In dec key k rows r) in Hr.
  destruct (group_of dec key k rows); [contradiction|simpl; lia].
Qed.

Lemma qnat_pos (n : nat) : (1 <= n)%nat -> Qeq_bool (qnat n) 0 = false.
Proof.
  intro H. unfold qnat. apply not_true_iff_false. intro E.
  apply Qeq_bool_eq in E. unfold Qeq in E. simpl in E. lia.
Qed.

Lemma metric_of_total {K : Type} (dec : forall x y : K, {x = y} + {x <> y})
  (leb : K -> K -> bool) (key : flight -> K) (df : frame)
  (arr : option (list string)) (g : metric_row K) :
  In g (aggregate_delay_metric dec leb key df arr) ->
  (1 <= total_flights g)%nat /\
  exists q, pct_ontime g = Fin q /\ pct_delay g = Fin (100 - q).
Proof.
  unfold aggregate_delay_metric. intro H.
  apply in_map_iff in H as [k [<- Hk]].
  apply group_of_nonempty in Hk.
  unfold metric_of; simpl. split; [exact Hk|].
  unfold num_div. rewrite (qnat_pos _ Hk). simpl. eauto.
Qed.

(** The scenario table of the spec: 100 rows of one airline, all status
    [normal], 80 with [dep_delay = 5] and 20 with [dep_delay = 90]. *)
Definition scenario_row (d : Q) : flight :=
  mkFlight (DTs 19723) (Some 8%Z) "Delta Air Lines" "ATL"
    "Hartsfield-Jackson Atlanta International" "JFK"
    "John F. Kennedy International" "US" d "normal".

Definition scenario_df : frame :=
  repeat (scenario_row 5) 80 ++ repeat (scenario_row 90) 20.

(** every finite delay gets one of the six labels *)
Lemma cut_total (x : Q) :
  exists i, (i < 6)%nat /\ cut bins labels x = nth_error labels i.
Proof.
  unfold cut, Qltb; cbv -[Qle_bool].
  destruct (Qle_bool x 0); [exists 0%nat; split; [lia|reflexivity]|].
  destruct (Qle_bool x 15); [exists 1%nat; split; [lia|reflexivity]|].
  destruct (Qle_bool x 30); [exists 2%nat; split; [lia|reflexivity]|].
  destruct (Qle_bool x 60); [exists 3%nat; split; [lia|reflexivity]|].
  destruct (Qle_bool x 120); [exists 4%nat; split; [lia|reflexivity]|].
  exists 5%nat; split; [lia|reflexivity].
Qed.

Lemma has_bin_one (r : flight) :
  sum_nat (map (fun l => if has_bin l r then 1%nat else 0%nat) labels) = 1%nat.
Proof.
  unfold has_bin, delay_bin.
  destruct (cut_total (dep_delay r)) as [i [Hi ->]].
  do 6 (destruct i as [|i]; [reflexivity|]). lia.
Qed.

Lemma sum_nat_map_add {A : Type} (f g : A -> nat) (l : list A) :
  sum_nat (map (fun x => (f x + g x)%nat) l)
  = (sum_nat (map f l) + sum_nat (map g l))%nat.
Proof. induction l as [|a t IH]; simpl; [reflexivity|]. rewrite IH. lia. Qed.

Lemma sum_counts_length (g : frame) :
  sum_nat (map (fun l => List.length (filter (has_bin l) g)) labels)
  = List.length g.
Proof.
  induction g as [|r g IH]; [reflexivity|].
  transitivity (1 + List.length g)%nat; [|reflexivity].
  rewrite <- IH, <- (has_bin_one r), <- sum_nat_map_add.
  f_equal. apply map_ext. intro l. simpl. destruct (has_bin l r); reflexivity.
Qed.

Lemma qnat_add (a b : nat) : qnat (a + b) == qnat a + qnat b.
Proof. unfold qnat. rewrite Nat2Z.inj_add, inject_Z_plus. reflexivity. Qed.

Lemma num_sum_normalize (cs : list nat) (s : nat) :
  (1 <= s)%nat ->
  exists q, num_sum (map (fun c => num_div (qnat c) (qnat s)) cs) = Fin q /\
            q == qnat (sum_nat cs) / qnat s.
Proof.
  intro Hs. assert (Hz := qnat_pos s Hs).
  assert (Hnz : ~ qnat s == 0).
  { intro E. apply Qeq_bool_iff in E. congruence. }
  induction cs as [|c cs [q [Hq Hqe]]]; simpl.
  - exists 0. split; [reflexivity|]. change (qnat 0) with 0. unfold Qdiv. ring.
  - rewrite Hq. unfold num_div at 1. rewrite Hz.
    eexists; split; [reflexivity|].
    rewrite Hqe, qnat_add. field. exact Hnz.
Qed.

Lemma normalize_row (cs : list nat) :
  (1 <= sum_nat cs)%nat ->
  List.length (normalize cs) = List.length cs /\
  Forall (fun v => exists q, v = Fin q) (normalize cs) /\
  num_eqQ (num_sum (normalize cs)) 1 = true.
Proof.
  intro Hs. unfold normalize. split; [apply length_map|split].
  - apply Forall_forall. intros v Hv. apply in_map_iff in Hv as [c [<- _]].
    unfold num_div. rewrite (qnat_pos _ Hs). eauto.
  - destruct (num_sum_normalize cs _ Hs) as [q [-> Hq]]. simpl.
    apply Qeq_bool_iff. rewrite Hq. field.
    intro E. apply Qeq_bool_iff in E. rewrite (qnat_pos _ Hs) in E. discriminate.
Qed.

(** ** Sorting, filtering and top-n selection *)

Lemma Permutation_filter_length {A : Type} (f : A -> bool) (l l' : list A) :
  Permutation l l' -> List.length (filter f l) = List.length (filter f l').
Proof.
  induction 1 as [|x l l' _ IH|x y l|l l' l'' _ IH1 _ IH2]; simpl.
  - reflexivity.
  - destruct (f x); simpl; congruence.
  - destruct (f x), (f y); reflexivity.
  - congruence.
Qed.

Lemma filter_length_lt {A : Type} (f : A -> bool) (l : list A) (x : A) :
  In x l -> f x = false -> (List.length (filter f l) < List.length l)%nat.
Proof.
  induction l as [|y t IH]; simpl; [contradiction|].
  intros [<-|Hx] Hf.
  - rewrite Hf. pose proof (filter_length_le f t). lia.
  - specialize (IH Hx Hf). destruct (f y); simpl; lia.
Qed.

Lemma filter_all {A : Type} (f : A -> bool) (l : list A) :
  (forall x, In x l -> f x = true) -> filter f l = l.
Proof.
  induction l as [|y t IH]; simpl; intro H; [reflexivity|].
  rewrite (H y (or_introl eq_refl)), IH; [reflexivity|]. intros; apply H; auto.
Qed.

Lemma filter_none {A : Type} (f : A -> bool) (l : list A) :
  (forall x, In x l -> f x = false) -> filter f l = [].
Proof.
  induction l as [|y t IH]; simpl; intro H; [reflexivity|].
  rewrite (H y (or_introl eq_refl)). apply IH. intros; apply H; auto.
Qed.

Lemma StronglySorted_filter {A : Type} (R : A -> A -> Prop) (f : A -> bool)
  (l : list A) :
  StronglySorted R l -> StronglySorted R (filter f l).
Proof.
  induction 1 as [|x t _ IH Hx]; simpl; [constructor|].
  destruct (f x); [|exact IH]. constructor; [exact IH|].
  apply Forall_forall. intros y Hy. apply filter_In in Hy as [Hy _].
  exact (proj1 (Forall_forall _ _) Hx y Hy).
Qed.

Lemma StronglySorted_impl {A : Type} (R R' : A -> A -> Prop) (P : A -> Prop)
  (l : list A) :
  (forall x y, P x -> P y -> R x y -> R' x y) -> Forall P l ->
  StronglySorted R l -> StronglySorted R' l.
Proof.
  intros HR HP HS. induction HS as [|x t _ IH Hx]; [constructor|].
  inversion HP as [|? ? Px Pt]; subst. constructor; [exact (IH Pt)|].
  apply Forall_forall. intros y Hy.
  apply HR; [exact Px|exact (proj1 (Forall_forall _ _) Pt y Hy)|].
  exact (proj1 (Forall_forall _ _) Hx y Hy).
Qed.

Lemma StronglySorted_app_inv {A : Type} (R : A -> A -> Prop) (F G : list A) :
  StronglySorted R (F ++ G) ->
  StronglySorted R G /\ (forall x y, In x F -> In y G -> R x y).
Proof.
  induction F as [|a F IH]; simpl; intro H; [split; [exact H|contradiction]|].
  apply StronglySorted_inv in H as [H Ha].
  destruct (IH H) as [HG Hc]. split; [exact HG|].
  intros x y [<-|Hx] Hy; [|exact (Hc x y Hx Hy)].
  apply (proj1 (Forall_forall _ _) Ha). apply in_or_app. right. exact Hy.
Qed.

Section Ext.
Context {A : Type} (P : A -> Prop) (le1 le2 : A -> A -> bool).
Hypothesis Hle : forall x y, P x -> P y -> le1 x y = le2 x y.

Lemma insert_by_ext (x : A) (l : list A) :
  P x -> Forall P l -> insert_by le1 x l = insert_by le2 x l.
Proof.
  intros Px HP. induction HP as [|y t Py _ IH]; simpl; [reflexivity|].
  rewrite (Hle x y Px Py), IH. reflexivity.
Qed.

Lemma isort_ext (l : list A) : Forall P l -> isort le1 l = isort le2 l.
Proof.
  induction 1 as [|x t Px Pt IH]; simpl; [reflexivity|].
  rewrite IH. apply insert_by_ext; [exact Px|].
  apply Forall_forall. intros y Hy.
  apply (Permutation_in _ (isort_perm le2 t)) in Hy.
  exact (proj1 (Forall_forall _ _) Pt y Hy).
Qed.

Lemma nlargest_ext (n : nat) (l : list A) :
  Forall P l -> nlargest n le1 l = nlargest n le2 l.
Proof.
  intro HP. unfold nlargest. rewrite (isort_ext l HP).
  assert (HS : Forall P (isort le2 l)).
  { apply Forall_forall. intros y Hy.
    apply (Permutation_in _ (isort_perm le2 l)) in Hy.
    exact (proj1 (Forall_forall _ _) HP y Hy). }
  destruct (Nat.leb _ _); [reflexivity|].
  destruct (nth_error (isort le2 l) (n - 1)) as [k|] eqn:Ek; [|reflexivity].
  assert (Pk : P k).
  { apply nth_error_In in Ek. exact (proj1 (Forall_forall _ _) HS k Ek). }
  apply filter_ext_in. intros y Hy.
  apply Hle; [exact (proj1 (Forall_forall _ _) HS y Hy)|exact Pk].
Qed.
End Ext.

Section TopN.
Context {A : Type}.
Variable key : A -> Q.

Local Abbreviation key_ge := (key_ge key).
Local Abbreviation key_desc := (key_desc key).
Local Abbreviation above := (above key).

Lemma insert_by_sorted (x : A) (l : list A) :
  Sorted key_desc l -> Sorted key_desc (insert_by key_ge x l).
Proof.
  induction 1 as [|y t Ht IH Hy]; simpl; [repeat constructor|].
  unfold key_ge at 1. destruct (Qle_bool (key y) (key x)) eqn:E.
  - constructor; [constructor; assumption|].
    constructor. apply Qle_bool_iff. exact E.
  - assert (Hxy : key x <= key y).
    { apply Qlt_le_weak, Qnot_le_lt. intro C. apply Qle_bool_iff in C. congruence. }
    constructor; [exact IH|].
    destruct t as [|z t']; simpl; [constructor; exact Hxy|].
    destruct (key_ge x z); constructor; [exact Hxy|].
    inversion Hy; assumption.
Qed.

Lemma isort_strongly_sorted (l : list A) :
  StronglySorted key_desc (isort key_ge l).
Proof.
  apply Sorted_StronglySorted.
  - intros x y z H1 H2. unfold key_desc in *. eapply Qle_trans; eauto.
  - induction l as [|x t IH]; simpl; [constructor|].
    apply insert_by_sorted, IH.
Qed.

Lemma nlargest_strongly_sorted (n : nat) (l : list A) :
  StronglySorted key_desc (nlargest n key_ge l).
Proof.
  unfold nlargest. pose proof (isort_strongly_sorted l) as HS.
  destruct (Nat.leb _ _); [exact HS|].
  destruct (nth_error _ _); [apply StronglySorted_filter|]; exact HS.
Qed.

Lemma above_perm (x : A) (l l' : list A) :
  Permutation l l' -> List.length (above x l) = List.length (above x l').
Proof. apply Permutation_filter_length. Qed.

Lemma nlargest_sorted_In (n : nat) (s : list A) (x : A) :
  (0 < n)%nat -> StronglySorted key_desc s -> (n < List.length s)%nat ->
  forall k, nth_error s (n - 1) = Some k ->
  (In x (filter (fun y => key_ge y k) s) <->
   In x s /\ (List.length (above x s) < n)%nat).
Proof.
  intros Hn HS Hlen k Hk.
  destruct (nth_error_split s (n - 1) Hk) as [F [B [Hsplit HF]]].
  rewrite Hsplit in HS |- *.
  apply StronglySorted_app_inv in HS as [HSkB Hcross].
  apply StronglySorted_inv in HSkB as [_ HkB].
  assert (Fge : forall y, In y F -> key k <= key y)
    by (intros y Hy; apply (Hcross y k Hy (or_introl eq_refl))).
  assert (Ble : forall y, In y B -> key y <= key k)
    by (intros y Hy; exact (proj1 (Forall_forall _ _) HkB y Hy)).
  rewrite filter_In. unfold key_ge. rewrite Qle_bool_iff.
  split.
  - intros [Hx Hkx]. split; [exact Hx|].
    unfold above. rewrite filter_app. simpl.
    replace (Qltb (key x) (key k)) with false.
    2:{ symmetry. unfold Qltb. rewrite negb_false_iff, Qle_bool_iff. exact Hkx. }
    rewrite (filter_none _ B), app_nil_r.
    + pose proof (filter_length_le (fun s => Qltb (key x) (key s)) F). lia.
    + intros y Hy. unfold Qltb. rewrite negb_false_iff, Qle_bool_iff.
      eapply Qle_trans; [apply Ble; exact Hy|exact Hkx].
  - intros [Hx Hc]. split; [exact Hx|].
    destruct (Qlt_le_dec (key x) (key k)) as [Hlt|Hle]; [exfalso|exact Hle].
    unfold above in Hc. rewrite filter_app, length_app in Hc. simpl in Hc.
    replace (Qltb (key x) (key k)) with true in Hc.
    2:{ symmetry. unfold Qltb. rewrite negb_true_iff.
        apply not_true_iff_false. rewrite Qle_bool_iff.
        apply Qlt_not_le. exact Hlt. }
    rewrite (filter_all _ F) in Hc.
    + simpl in Hc. lia.
    + intros y Hy. unfold Qltb. rewrite negb_true_iff.
      apply not_true_iff_false. rewrite Qle_bool_iff. apply Qlt_not_le.
      eapply Qlt_le_trans; [exact Hlt|apply Fge; exact Hy].
Qed.

(** "top n with ties": [x] is selected exactly when fewer than [n] elements
    rank strictly above it *)
Lemma nlargest_In (n : nat) (l : list A) (x : A) :
  (0 < n)%nat ->
  In x (nlargest n key_ge l) <->
  In x l /\ (List.length (above x l) < n)%nat.
Proof.
  intro Hn. unfold nlargest.
  pose proof (isort_perm key_ge l) as Hp.
  rewrite <- (above_perm x _ _ Hp).
  assert (HI : In x (isort key_ge l) <-> In x l)
    by (split; apply Permutation_in; [exact Hp|symmetry; exact Hp]).
  rewrite <- HI.
  destruct (Nat.leb (List.length (isort key_ge l)) n) eqn:Hlen.
  - apply Nat.leb_le in Hlen. split; [|tauto]. intro Hx. split; [exact Hx|].
    unfold above. pose proof (filter_length_lt (fun s => Qltb (key x) (key s))
      (isort key_ge l) x Hx) as Hlt.
    assert (Hxx : Qltb (key x) (key x) = false).
    { unfold Qltb. rewrite negb_false_iff, Qle_bool_iff. apply Qle_refl. }
    specialize (Hlt Hxx). lia.
  - apply Nat.leb_gt in Hlen.
    destruct (nth_error (isort key_ge l) (n - 1)) as [k|] eqn:Ek.
    + apply nlargest_sorted_In; auto. apply isort_strongly_sorted.
    + apply nth_error_None in Ek. lia.
Qed.
End TopN.

(** ** Facts about the route table *)

Lemma route_table_In (rows : frame) (rt : route) :
  In rt (route_table rows) ->
  (1 <= flight_count rt)%nat /\
  delay_rate rt = Fin (qnat (delay_count rt) / qnat (flight_count rt)).
Proof.
  unfold route_table. intro H. apply in_map_iff in H as [k [<- Hk]].
  apply group_of_nonempty in Hk. simpl. split; [exact Hk|].
  unfold num_div. rewrite (qnat_pos _ Hk). reflexivity.
Qed.

Lemma above_median_finite (rd : list route) (rt : route) :
  (forall r, In r rd -> finite_rate r) ->
  In rt (routes_above_median rd) -> finite_rate rt.
Proof.
  intros H Hin. apply filter_In in Hin as [Hin _]. exact (H rt Hin).
Qed.

Lemma rate_ge_key (x y : route) :
  finite_rate x -> finite_rate y -> rate_ge x y = key_ge rate_key x y.
Proof.
  intros [qx Hx] [qy Hy]. unfold rate_ge, key_ge, rate_key. rewrite Hx, Hy.
  reflexivity.
Qed.

Lemma rate_gt_key (x y : route) :
  finite_rate x -> finite_rate y ->
  num_gtb (delay_rate y) (delay_rate x) = Qltb (rate_key x) (rate_key y).
Proof.
  intros [qx Hx] [qy Hy]. unfold num_gtb, Qltb, rate_key. rewrite Hx, Hy.
  simpl. destruct (Qle_bool qy qx) eqn:E1; simpl; [apply andb_false_r|].
  rewrite andb_true_r. apply Qle_bool_iff, Qlt_le_weak, Qnot_le_lt.
  intro C. apply Qle_bool_iff in C. congruence.
Qed.

Lemma median_cases (l : list nat) : median l = NaN \/ exists q, median l = Fin q.
Proof.
  unfold median. destruct (List.length (isort Nat.leb l)); [left; reflexivity|].
  right. destruct (Nat.even _); eexists; reflexivity.
Qed.

Section BoolSort.
Context {A : Type} (le : A -> A -> bool).
Hypothesis le_total : forall x y, le x y = false -> le y x = true.

Lemma insert_by_sorted_bool (x : A) (l : list A) :
  Sorted (fun a b => le a b = true) l ->
  Sorted (fun a b => le a b = true) (insert_by le x l).
Proof.
  induction 1 as [|y t Ht IH Hy]; simpl; [repeat constructor|].
  destruct (le x y) eqn:E.
  - constructor; [constructor; assumption|]. constructor. exact E.
  - constructor; [exact IH|].
    destruct t as [|z t']; simpl; [constructor; apply le_total, E|].
    destruct (le x z); constructor; [apply le_total, E|].
    inversion Hy; assumption.
Qed.

Lemma isort_sorted_bool (l : list A) :
  Sorted (fun a b => le a b = true) (isort le l).
Proof.
  induction l as [|x t IH]; simpl; [constructor|].
  apply insert_by_sorted_bool, IH.
Qed.
End BoolSort.

Lemma string_leb_total (x y : string) :
  String.leb x y = false -> String.leb y x = true.
Proof.
  intro H. destruct (String.leb_total x y) as [E|E]; congruence.
Qed.

(** ** Groups partition the rows *)

Lemma distinct_NoDup {K : Type} (dec : forall x y : K, {x = y} + {x <> y})
  (l : list K) : NoDup (distinct dec l).
Proof.
  induction l as [|a t IH]; simpl; [constructor|].
  destruct (existsb _ t) eqn:E; [exact IH|].
  constructor; [|exact IH]. rewrite distinct_In. intro Ha.
  apply not_true_iff_false in E. apply E, existsb_exists.
  exists a. split; [exact Ha|]. destruct (dec a a); [reflexivity|congruence].
Qed.

Lemma group_keys_NoDup {K R : Type} (dec : forall x y : K, {x = y} + {x <> y})
  (leb : K -> K -> bool) (key : R -> K) (rows : list R) :
  NoDup (group_keys dec leb key rows).
Proof.
  unfold group_keys. eapply Permutation_NoDup;
    [symmetry; apply isort_perm|apply distinct_NoDup].
Qed.

Lemma filter_split_perm {A : Type} (f : A -> bool) (l : list A) :
  Permutation (filter f l ++ filter (fun x => negb (f x)) l) l.
Proof.
  induction l as [|x t IH]; simpl; [constructor|].
  destruct (f x); simpl; [constructor; exact IH|].
  rewrite <- Permutation_middle. constructor. exact IH.
Qed.

Lemma filter_and {A : Type} (p q : A -> bool) (l : list A) :
  filter p (filter q l) = filter (fun x => q x && p x) l.
Proof.
  induction l as [|x t IH]; simpl; [reflexivity|].
  destruct (q x); simpl; [destruct (p x)|]; simpl; rewrite ?IH; reflexivity.
Qed.

Lemma concat_groups_perm {K R : Type} (dec : forall x y : K, {x = y} + {x <> y})
  (key : R -> K) (ks : list K) (rows : list R) :
  NoDup ks -> (forall r, In r rows -> In (key r) ks) ->
  Permutation (List.concat (map (fun k => group_of dec key k rows) ks)) rows.
Proof.
  intro Hnd. revert rows. induction Hnd as [|k ks Hk Hnd IH]; intros rows Hin; simpl.
  - destruct rows as [|r t]; [constructor|]. exfalso. exact (Hin r (or_introl eq_refl)).
  - set (rest := filter (fun r => negb (if dec (key r) k then true else false)) rows).
    assert (E : map (fun k' => group_of dec key k' rows) ks
              = map (fun k' => group_of dec key k' rest) ks).
    { apply map_ext_in. intros k' Hk'. unfold group_of, rest.
      rewrite filter_and. apply filter_ext. intro r.
      destruct (dec (key r) k'), (dec (key r) k); subst; simpl; try reflexivity.
      contradiction. }
    rewrite E, IH.
    + apply filter_split_perm.
    + intros r Hr. unfold rest in Hr. apply filter_In in Hr as [Hr Hne].
      destruct (Hin r Hr) as [Ek|Ek]; [|exact Ek].
      destruct (dec (key r) k); [discriminate|congruence].
Qed.

Lemma groups_perm {K R : Type} (dec : forall x y : K, {x = y} + {x <> y})
  (leb : K -> K -> bool) (key : R -> K) (rows : list R) :
  Permutation
    (List.concat (map (fun k => group_of dec key k rows) (group_keys dec leb key rows)))
    rows.
Proof.
  apply concat_groups_perm; [apply group_keys_NoDup|].
  intros r Hr. apply group_keys_In. eauto.
Qed.

Lemma sum_nat_perm (l l' : list nat) : Permutation l l' -> sum_nat l = sum_nat l'.
Proof. induction 1; simpl; lia. Qed.

Lemma sum_nat_concat {A : Type} (f : A -> nat) (L : list (list A)) :
  sum_nat (map f (List.concat L)) = sum_nat (map (fun l => sum_nat (map f l)) L).
Proof.
  induction L as [|l L IH]; simpl; [reflexivity|].
  rewrite map_app. rewrite <- IH. clear IH. induction l; simpl; lia.
Qed.

Lemma sum_nat_ones {A : Type} (l : list A) :
  sum_nat (map (fun _ => 1%nat) l) = List.length l.
Proof. induction l; simpl; lia. Qed.

(** summing a quantity group by group gives its total over the rows *)
Lemma groups_sum {K R : Type} (dec : forall x y : K, {x = y} + {x <> y})
  (leb : K -> K -> bool) (key : R -> K) (f : R -> nat) (rows : list R) :
  sum_nat (map (fun k => sum_nat (map f (group_of dec key k rows)))
               (group_keys dec leb key rows))
  = sum_nat (map f rows).
Proof.
  rewrite <- (map_map (fun k => group_of dec key k rows)
                      (fun l => sum_nat (map f l))).
  rewrite <- sum_nat_concat. apply sum_nat_perm, Permutation_map, groups_perm.
Qed.

Lemma groups_count {K R : Type} (dec : forall x y : K, {x = y} + {x <> y})
  (leb : K -> K -> bool) (key : R -> K) (rows : list R) :
  sum_nat (map (fun k => List.length (group_of dec key k rows))
               (group_keys dec leb key rows))
  = List.length rows.
Proof.
  rewrite <- sum_nat_ones, <- (groups_sum dec leb key (fun _ => 1%nat)).
  f_equal. apply map_ext. intro k. symmetry. apply sum_nat_ones.
Qed.

Lemma group_size_sum {K : Type} (dec : forall x y : K, {x = y} + {x <> y})
  (leb : K -> K -> bool) (keys : list K) :
  sum_nat (map snd (group_size dec leb keys)) = List.length keys.
Proof.
  unfold group_size. rewrite map_map. simpl. apply groups_count.
Qed.

Lemma group_of_length_map {K A : Type} (dec : forall x y : K, {x = y} + {x <> y})
  (f : A -> K) (k : K) (l : list A) :
  List.length (group_of dec (fun x => x) k (map f l))
  = List.length (group_of dec f k l).
Proof.
  induction l as [|x t IH]; simpl; [reflexivity|].
  unfold group_of in *. simpl. destruct (dec (f x) k); simpl; rewrite IH; reflexivity.
Qed.

Lemma group_size_In {K : Type} (dec : forall x y : K, {x = y} + {x <> y})
  (leb : K -> K -> bool) (keys : list K) (k : K) (c : nat) :
  In (k, c) (group_size dec leb keys) <->
  In k keys /\ c = List.length (group_of dec (fun x => x) k keys).
Proof.
  unfold group_size. rewrite in_map_iff. split.
  - intros [k' [E Hk']]. injection E as <- <-. split; [|reflexivity].
    apply group_keys_In in Hk' as [x [Hx <-]]. exact Hx.
  - intros [Hk ->]. exists k. split; [reflexivity|].
    apply group_keys_In. exists k. auto.
Qed.

Lemma group_size_fst {K : Type} (dec : forall x y : K, {x = y} + {x <> y})
  (leb : K -> K -> bool) (keys : list K) :
  map fst (group_size dec leb keys) = group_keys dec leb (fun x => x) keys.
Proof. unfold group_size. rewrite map_map. simpl. apply map_id. Qed.

Lemma sum_nat_fold (f : flight -> nat) (l : frame) :
  fold_right (fun r acc => (f r + acc)%nat) 0%nat l = sum_nat (map f l).
Proof. induction l as [|x t IH]; simpl; [reflexivity|]. rewrite IH. reflexivity. Qed.

Lemma sum_nat_indicator {A : Type} (p : A -> bool) (l : list A) :
  sum_nat (map (fun x => if p x then 1%nat else 0%nat) l) = List.length (filter p l).
Proof. induction l as [|x t IH]; simpl; [reflexivity|]. destruct (p x); simpl; lia. Qed.

Lemma length_filter_le {A : Type} (p : A -> bool) (l : list A) :
  (List.length (filter p l) <= List.length l)%nat.
Proof. induction l as [|x t IH]; simpl; [lia|]. destruct (p x); simpl; lia. Qed.

Lemma In_isort {A : Type} (le : A -> A -> bool) (l : list A) (x : A) :
  In x (isort le l) <-> In x l.
Proof.
  split; apply Permutation_in; [apply isort_perm|symmetry; apply isort_perm].
Qed.

Lemma nlargest_incl {A : Type} (n : nat) (ge : A -> A -> bool) (l : list A) (x : A) :
  In x (nlargest n ge l) -> In x l.
Proof.
  unfold nlargest. intro H. apply (In_isort ge).
  destruct (Nat.leb _ n); [exact H|].
  destruct (nth_error _ _); [apply filter_In in H as [H _]|]; exact H.
Qed.

(** a ratio [qnat n / qnat m] with [n <= m] and [m >= 1] lies in [0, 1] *)
Lemma qnat_ratio_unit (n m : nat) :
  (n <= m)%nat -> (1 <= m)%nat ->
  0 <= qnat n / qnat m /\ qnat n / qnat m <= 1.
Proof.
  intros Hnm Hm. assert (Hpos : 0 < qnat m)
    by (unfold qnat; change 0 with (inject_Z 0); rewrite <- Zlt_Qlt; lia).
  split.
  - apply Qle_shift_div_l; [exact Hpos|]. rewrite Qmult_0_l.
    unfold qnat. change 0 with (inject_Z 0). rewrite <- Zle_Qle. lia.
  - apply Qle_shift_div_r; [exact Hpos|]. rewrite Qmult_1_l.
    unfold qnat. rewrite <- Zle_Qle. lia.
Qed.


Lemma delay_bin_some (r : flight) : exists l, delay_bin r = Some l.
Proof.
  unfold delay_bin. destruct (cut_total (dep_delay r)) as [i [Hi ->]].
  destruct (nth_error labels i) eqn:E; [eauto|].
  apply nth_error_None in E. simpl in E. lia.
Qed.

Lemma sum_nat_app (l1 l2 : list nat) : sum_nat (l1 ++ l2) = (sum_nat l1 + sum_nat l2)%nat.
Proof. induction l1 as [|x t IH]; simpl; lia. Qed.

Lemma sum_nat_filter_split {A : Type} (f : A -> nat) (p : A -> bool) (l : list A) :
  (sum_nat (map f (filter p l)) + sum_nat (map f (filter (fun x => negb (p x)) l)))%nat
  = sum_nat (map f l).
Proof.
  rewrite <- sum_nat_app, <- map_app. apply sum_nat_perm, Permutation_map, filter_split_perm.
Qed.

Lemma In_le_sum_nat (c : nat) (l : list nat) : In c l -> (c <= sum_nat l)%nat.
Proof. induction l as [|x t IH]; simpl; [contradiction|]. intros [<-|H]; [lia|]. apply IH in H. lia. Qed.

Lemma route_table_counts (rows : frame) :
  sum_nat (map flight_count (route_table rows)) = List.length rows /\
  sum_nat (map delay_count (route_table rows)) = sum_nat (map is_delayed rows).
Proof.
  unfold route_table. rewrite !map_map. simpl. split.
  - apply groups_count.
  - apply groups_sum.
Qed.

Lemma route_table_delay_le (rows : frame) (rt : route) :
  In rt (route_table rows) -> (delay_count rt <= flight_count rt)%nat.
Proof.
  unfold route_table. intro H. apply in_map_iff in H as [k [<- _]]. simpl.
  set (g := group_of _ _ _ _). clear. induction g as [|r t IH]; simpl; [lia|].
  unfold is_delayed at 1. destruct (Qltb _ _); lia.
Qed.

Lemma normalize_unit (cs : list nat) (v : num) :
  (1 <= sum_nat cs)%nat -> In v (normalize cs) ->
  exists q, v = Fin q /\ 0 <= q /\ q <= 1.
Proof.
  intros Hne Hv. unfold normalize in Hv. apply in_map_iff in Hv as [c [<- Hc]].
  unfold num_div. rewrite (qnat_pos _ Hne). eexists; split; [reflexivity|].
  apply qnat_ratio_unit; [apply In_le_sum_nat, Hc|exact Hne].
Qed.

(** the median of a list of equal counts is that count *)
Lemma median_const (l : list nat) (c : nat) :
  l <> [] -> (forall x, In x l -> x = c) ->
  exists q, median l = Fin q /\ q == qnat c.
Proof.
  intros Hne Hc. unfold median.
  set (s := isort Nat.leb l).
  assert (Hs : forall i, (i < List.length s)%nat -> nth i s 0%nat = c).
  { intros i Hi. apply Hc, (In_isort Nat.leb), nth_In, Hi. }
  assert (Hlen : List.length s = List.length l)
    by (apply Permutation_length, isort_perm).
  destruct l as [|x t]; [congruence|]. clear Hne.
  destruct (List.length s) as [|n] eqn:E; [simpl in Hlen; lia|].
  assert (Hd : (S n / 2 < S n)%nat) by (apply Nat.div_lt; lia).
  destruct (Nat.even (S n)) eqn:Ev.
  - assert (Hd1 : (1 <= S n / 2)%nat).
    { apply Nat.div_le_lower_bound; [lia|].
      destruct n; [discriminate|lia]. }
    rewrite (Hs (S n / 2)%nat Hd), (Hs (S n / 2 - 1)%nat ltac:(lia)).
    eexists; split; [reflexivity|]. field.
  - rewrite (Hs _ Hd). eexists; split; [reflexivity|]. reflexivity.
Qed.

Lemma some_keys_In {A B : Type} (f : A -> option B) (l : list A) (b : B) :
  In b (some_keys f l) <-> exists x, In x l /\ f x = Some b.
Proof.
  induction l as [|x t IH]; simpl; [split; [contradiction|intros [? [[] _]]]|].
  destruct (f x) as [b'|] eqn:E; simpl; rewrite IH; split.
  - intros [<-|[y [Hy Hb]]]; eauto.
  - intros [y [[<-|Hy] Hb]]; [left; congruence|eauto].
  - intros [y [Hy Hb]]; eauto.
  - intros [y [[<-|Hy] Hb]]; [congruence|eauto].
Qed.

Lemma some_keys_count {A B : Type} (dec : forall x y : B, {x = y} + {x <> y})
  (f : A -> option B) (k : B) (l : list A) :
  List.length (group_of dec (fun x => x) k (some_keys f l))
  = List.length (filter (fun x => match f x with
                                  | Some b => if dec b k then true else false
                                  | None => false end) l).
Proof.
  induction l as [|x t IH]; simpl; [reflexivity|].
  destruct (f x) as [b|]; [|exact IH].
  unfold group_of in *. simpl. destruct (dec b k); simpl; rewrite IH; reflexivity.
Qed.

Lemma some_keys_length {A B : Type} (f : A -> option B) (l : list A) :
  List.length (some_keys f l)
  = List.length (filter (fun x => if f x then true else false) l).
Proof.
  induction l as [|x t IH]; simpl; [reflexivity|].
  destruct (f x); simpl; rewrite ?IH; reflexivity.
Qed.

Lemma length_filter_mono {A : Type} (p q : A -> bool) (l : list A) :
  (forall x, In x l -> p x = true -> q x = true) ->
  (List.length (filter p l) <= List.length (filter q l))%nat.
Proof.
  induction l as [|x t IH]; simpl; intro H; [lia|].
  assert (IH' := IH (fun y Hy => H y (or_intror Hy))).
  destruct (p x) eqn:Ep; [rewrite (H x (or_introl eq_refl) Ep); simpl; lia|].
  destruct (q x); simpl; lia.
Qed.

Lemma map_option_None {A B : Type} (f : A -> option B) (l : list A) :
  map_option f l = None <-> exists x, In x l /\ f x = None.
Proof.
  induction l as [|x t IH]; simpl.
  - split; [discriminate|intros [? [[] _]]].
  - destruct (f x) eqn:E.
    + destruct (map_option f t) as [t'|] eqn:Et; split.
      * discriminate.
      * intros [y [[<-|Hy] Hn]]; [congruence|].
        assert (Some t' = None) by (apply IH; eauto). discriminate.
      * intros _. destruct (proj1 IH eq_refl) as [y [Hy Hn]]. eauto.
      * reflexivity.
    + split; [intros _; eauto|reflexivity].
Qed.

Lemma map_option_Some {A B : Type} (f : A -> option B) (l : list A) (l' : list B) :
  map_option f l = Some l' ->
  List.length l' = List.length l /\
  (forall y, In y l' -> exists x, In x l /\ f x = Some y).
Proof.
  revert l'. induction l as [|x t IH]; simpl; intros l' H.
  - injection H as <-. split; [reflexivity|contradiction].
  - destruct (f x) eqn:E; [|discriminate].
    destruct (map_option f t) eqn:Et; [|discriminate].
    injection H as <-. destruct (IH _ eq_refl) as [Hl Hi].
    split; [simpl; congruence|].
    intros y [<-|Hy]; [eauto|]. destruct (Hi y Hy) as [z [Hz Hf]]. eauto.
Qed.

Lemma day_name_In (d : Z) : In (day_name d) weekday_order.
Proof.
  unfold day_name. apply nth_In. simpl.
  pose proof (Z.mod_pos_bound (d + 3) 7 ltac:(lia)). lia.
Qed.

Lemma to_datetime_column_Some (rows rows' : frame) :
  to_datetime_column rows = Some rows' ->
  Forall (fun r => exists d, flight_date r = DTs d) rows' /\
  map (fun r => (hour r, airline r, dep_iata r, dep_airport r, arr_iata r,
                 arr_airport r, arr_country r, dep_delay r, flight_status r)) rows'
  = map (fun r => (hour r, airline r, dep_iata r, dep_airport r, arr_iata r,
                   arr_airport r, arr_country r, dep_delay r, flight_status r)) rows.
Proof.
  revert rows'. induction rows as [|r t IH]; simpl; intros rows' H.
  - injection H as <-. split; constructor.
  - destruct (to_datetime_cell (flight_date r)) as [c|] eqn:Ec; [|discriminate].
    destruct (to_datetime_column t) as [t'|]; [|discriminate].
    injection H as <-. destruct (IH _ eq_refl) as [Hf Hm].
    split; [constructor; [|exact Hf]|simpl; rewrite Hm; reflexivity].
    simpl. destruct (flight_date r); simpl in Ec.
    + destruct (parse_iso_date s); [|discriminate]. injection Ec as <-. eauto.
    + injection Ec as <-. eauto.
Qed.

Lemma to_datetime_column_converted (rows : frame) :
  (forall r, In r rows -> exists d, flight_date r = DTs d) ->
  to_datetime_column rows = Some rows.
Proof.
  induction rows as [|r t IH]; simpl; intro H; [reflexivity|].
  destruct (H r (or_introl eq_refl)) as [d Hd]. rewrite Hd. simpl.
  rewrite IH by (intros; apply H; auto).
  destruct r; simpl in Hd; subst. reflexivity.
Qed.

(** in a list sorted upwards, at most [length s - (i + 1)] elements exceed
    the [i]-th one *)
Lemma count_above_sorted (s : list nat) (i : nat) :
  StronglySorted (fun x y => (x <= y)%nat) s -> (i < List.length s)%nat ->
  (List.length (filter (fun x => Nat.ltb (nth i s 0%nat) x) s)
   <= List.length s - (i + 1))%nat.
Proof.
  intro H. revert i. induction H as [|x t Ht IH Hx]; simpl; intros i Hi; [lia|].
  rewrite Forall_forall in Hx. rewrite Nat.add_1_r in *. simpl.
  destruct i as [|i].
  - destruct (Nat.ltb x x) eqn:E; [apply Nat.ltb_lt in E; lia|].
    pose proof (length_filter_le (fun y => Nat.ltb x y) t). lia.
  - assert (Hin : In (nth i t 0%nat) t) by (apply nth_In; lia).
    destruct (Nat.ltb (nth i t 0%nat) x) eqn:E.
    + apply Nat.ltb_lt in E. specialize (Hx _ Hin). lia.
    + specialize (IH i ltac:(lia)). lia.
Qed.

Lemma sorted_nth_le (s : list nat) (j : nat) :
  StronglySorted (fun x y => (x <= y)%nat) s -> (S j < List.length s)%nat ->
  (nth j s 0%nat <= nth (S j) s 0%nat)%nat.
Proof.
  intro H. revert j. induction H as [|x t Ht IH Hx]; simpl; intros j Hj; [lia|].
  destruct j as [|j].
  - destruct t as [|y t']; [simpl in Hj; lia|].
    rewrite Forall_forall in Hx. apply Hx. left. reflexivity.
  - apply IH. lia.
Qed.

Lemma isort_nat_strongly_sorted (l : list nat) :
  StronglySorted (fun x y => (x <= y)%nat) (isort Nat.leb l).
Proof.
  assert (Hs := isort_sorted_bool Nat.leb
                  ltac:(intros x y H; apply Nat.leb_gt in H; apply Nat.leb_le; lia) l).
  apply Sorted_StronglySorted in Hs;
    [|intros x y z H1 H2; apply Nat.leb_le in H1, H2; apply Nat.leb_le; lia].
  eapply (StronglySorted_impl _ _ (fun _ => True)); [|apply Forall_forall; auto|exact Hs].
  intros x y _ _ H. apply Nat.leb_le. exact H.
Qed.

Lemma qnat_lt (a b : nat) : qnat a < qnat b <-> (a < b)%nat.
Proof. unfold qnat. rewrite <- Zlt_Qlt. lia. Qed.

Lemma qnat_le (a b : nat) : qnat a <= qnat b <-> (a <= b)%nat.
Proof. unfold qnat. rewrite <- Zle_Qle. lia. Qed.

(** at most half of a list of counts lies strictly above its median *)
Lemma count_gt_median_half (l : list nat) :
  (2 * List.length (filter (count_gt (median l)) l) <= List.length l)%nat.
Proof.
  set (s := isort Nat.leb l).
  assert (Hp : Permutation s l) by apply isort_perm.
  assert (Hss := isort_nat_strongly_sorted l). fold s in Hss.
  rewrite <- (Permutation_filter_length _ _ _ Hp), <- (Permutation_length Hp).
  unfold median. fold s.
  destruct (List.length s) as [|n] eqn:E.
  - simpl. destruct s; [simpl; lia|discriminate].
  - assert (Hd : (S n / 2 < S n)%nat) by (apply Nat.div_lt; lia).
    pose proof (Nat.div_mod (S n) 2 ltac:(lia)) as Hdm.
    destruct (Nat.even (S n)) eqn:Ev.
    + assert (Hm : (S n mod 2 = 0)%nat).
      { apply Nat.even_spec in Ev as [k Hk]. rewrite Hk, Nat.mul_comm, Nat.Div0.mod_mul.
        reflexivity. }
      assert (Hd1 : (1 <= S n / 2)%nat) by lia.
      set (lo := nth (S n / 2 - 1) s 0%nat).
      set (hi := nth (S n / 2) s 0%nat).
      assert (Hlh : (lo <= hi)%nat).
      { unfold lo, hi. replace (S n / 2)%nat with (S (S n / 2 - 1)) at 2 by lia.
        apply sorted_nth_le; [exact Hss|lia]. }
      eapply Nat.le_trans.
      * apply Nat.mul_le_mono_l.
        apply (length_filter_mono _ (fun x => Nat.ltb lo x)).
        intros x _ Hx. simpl in Hx. unfold Qltb in Hx.
        apply negb_true_iff, not_true_iff_false in Hx. apply Nat.ltb_lt.
        destruct (Nat.lt_ge_cases lo x) as [Hl|Hl]; [exact Hl|].
        exfalso. apply Hx, Qle_bool_iff.
        apply (Qle_trans _ (qnat lo)); [apply qnat_le, Hl|].
        apply Qle_shift_div_l; [reflexivity|].
        apply (Qle_trans _ (qnat lo + qnat hi)).
        -- rewrite Qmult_comm. change (2 * qnat lo) with ((1 + 1) * qnat lo).
           rewrite Qmult_plus_distr_l, Qmult_1_l.
           apply Qplus_le_r, qnat_le, Hlh.
        -- apply Qle_refl.
      * pose proof (count_above_sorted s (S n / 2 - 1) Hss ltac:(lia)) as Hc.
        fold lo in Hc. rewrite E in Hc. lia.
    + assert (Hm : (S n mod 2 = 1)%nat).
      { pose proof (Nat.mod_upper_bound (S n) 2 ltac:(lia)).
        destruct (S n mod 2) as [|[|]] eqn:Em; try lia.
        exfalso. apply Nat.Div0.mod_divides in Em as [k Hk].
        rewrite Hk, Nat.even_mul in Ev. discriminate. }
      set (mid := nth (S n / 2) s 0%nat).
      eapply Nat.le_trans.
      * apply Nat.mul_le_mono_l.
        apply (length_filter_mono _ (fun x => Nat.ltb mid x)).
        intros x _ Hx. simpl in Hx. unfold Qltb in Hx.
        apply negb_true_iff, not_true_iff_false in Hx. apply Nat.ltb_lt.
        destruct (Nat.lt_ge_cases mid x) as [Hl|Hl]; [exact Hl|].
        exfalso. apply Hx, Qle_bool_iff, qnat_le, Hl.
      * pose proof (count_above_sorted s (S n / 2) Hss ltac:(lia)) as Hc.
        fold mid in Hc. rewrite E in Hc. lia.
Qed.

Lemma length_filter_map {A B : Type} (p : B -> bool) (f : A -> B) (l : list A) :
  List.length (filter p (map f l)) = List.length (filter (fun x => p (f x)) l).
Proof.
  induction l as [|x t IH]; simpl; [reflexivity|]. destruct (p (f x)); simpl; lia.
Qed.

Lemma region_rows_incl (db : country_db) (df : frame) (a region : string) (r : flight) :
  In r (region_rows db df a region) -> In r df /\ airline_operational a r = true.
Proof.
  unfold region_rows. destruct (String.eqb region "world").
  - apply filter_In.
  - intro H. apply filter_In in H as [H _]. apply filter_In, H.
Qed.

Lemma select_date_dates (df after out : frame) (s e : Z) (r : flight) :
  select_date df s e = Some (after, out) -> In r out ->
  exists d, flight_date r = DTs d.
Proof.
  unfold select_date. destruct (to_datetime_column df) as [conv|] eqn:E; [|discriminate].
  intros H Hr. injection H as <- <-. apply filter_In in Hr as [Hr _].
  destruct (to_datetime_column_Some _ _ E) as [Hf _].
  rewrite Forall_forall in Hf. exact (Hf r Hr).
Qed.

(** ** Claims *)

(** C5: every group row of [aggregate_delay_metric] has
    [pct_ontime + pct_delay == 100] (on-time meaning [dep_delay < 15]); on the
    scenario table (80 rows with delay 5, 20 with delay 90, one airline),
    grouping by airline yields one row with [pct_ontime = 80] and
    [pct_delay = 20]. *)
Theorem aggregate_delay_metric_pct_sum {K : Type}
  (dec : forall x y : K, {x = y} + {x <> y}) (leb : K -> K -> bool)
  (key : flight -> K) (df : frame) (arr : option (list string))
  (g : metric_row K) :
  In g (aggregate_delay_metric dec leb key df arr) ->
  num_eqQ (num_add (pct_ontime g) (pct_delay g)) 100 = true /\
  map (fun m => (m_key m, ontime_count m, total_flights m,
                 num_eqQ (pct_ontime m) 80, num_eqQ (pct_delay m) 20))
      (aggregate_delay_metric string_dec String.leb airline scenario_df None)
  = [("Delta Air Lines"%string, 80%nat, 100%nat, true, true)].
Proof.
  intro H. split; [|vm_compute; reflexivity].
  destruct (metric_of_total dec leb key df arr g H) as [_ [q [-> ->]]].
  simpl. apply Qeq_bool_iff. ring.
Qed.

Lemma aggregate_delay_metric_pct_sum_witness :
  In (mkMetric "Delta Air Lines"%string 80%nat 100%nat
        (num_mul (num_div (qnat 80) (qnat 100)) 100)
        (num_rsub 100 (num_mul (num_div (qnat 80) (qnat 100)) 100)))
     (aggregate_delay_metric string_dec String.leb airline scenario_df None)
  /\ num_eqQ (num_add (num_mul (num_div (qnat 80) (qnat 100)) 100)
                      (num_rsub 100 (num_mul (num_div (qnat 80) (qnat 100)) 100)))
             100 = true.
Proof.
  assert (H : In (mkMetric "Delta Air Lines"%string 80%nat 100%nat
        (num_mul (num_div (qnat 80) (qnat 100)) 100)
        (num_rsub 100 (num_mul (num_div (qnat 80) (qnat 100)) 100)))
     (aggregate_delay_metric string_dec String.leb airline scenario_df None))
    by (vm_compute; left; reflexivity).
  split; [exact H|].
  exact (proj1 (aggregate_delay_metric_pct_sum string_dec String.leb airline
                  scenario_df None _ H)).
Defined.

(** C9: every group row of [aggregate_delay_metric] has [total_flights >= 1],
    so the division [ontime_count / total_flights] never divides by zero
    (its result is a finite number). *)
Theorem aggregate_delay_metric_total_pos {K : Type}
  (dec : forall x y : K, {x = y} + {x <> y}) (leb : K -> K -> bool)
  (key : flight -> K) (df : frame) (arr : option (list string))
  (g : metric_row K) :
  In g (aggregate_delay_metric dec leb key df arr) ->
  (1 <= total_flights g)%nat /\ exists q, pct_ontime g = Fin q.
Proof.
  intro H. destruct (metric_of_total dec leb key df arr g H) as [Ht [q [Hq _]]].
  eauto.
Qed.

Lemma aggregate_delay_metric_total_pos_witness :
  (1 <= total_flights (mkMetric "Delta Air Lines"%string 80%nat 100%nat
        (num_mul (num_div (qnat 80) (qnat 100)) 100)
        (num_rsub 100 (num_mul (num_div (qnat 80) (qnat 100)) 100))))%nat.
Proof.
  apply (aggregate_delay_metric_total_pos string_dec String.leb airline
           scenario_df None).
  vm_compute. left. reflexivity.
Defined.

(** C10: a row with [dep_delay] exactly 15 is not on time for
    [aggregate_delay_metric] ([dep_delay < 15] fails, so it counts towards
    [pct_delay]), yet [peak_hour_delays] does not count it as delayed
    ([dep_delay > 15] fails): adding it to any table leaves the delayed
    counts of [peak_hour_delays] unchanged. *)
Theorem delay_threshold_15_disagree (a : string) (df : frame) (r : flight) :
  (dep_delay r == 15) ->
  on_time r = 0%nat /\
  ~ In r (peak_delayed_rows a (r :: df)) /\
  fst (peak_hour_delays a (r :: df)) = fst (peak_hour_delays a df).
Proof.
  intro H15.
  assert (Hd : Qltb 15 (dep_delay r) = false).
  { unfold Qltb. rewrite negb_false_iff. apply Qle_bool_iff. rewrite H15.
    apply Qle_refl. }
  assert (Hr : peak_delayed_rows a (r :: df) = peak_delayed_rows a df).
  { unfold peak_delayed_rows. simpl.
    destruct (airline_operational a r); simpl; [rewrite Hd|]; reflexivity. }
  split; [|split].
  - unfold on_time, Qltb. replace (Qle_bool 15 (dep_delay r)) with true;
      [reflexivity|]. symmetry. apply Qle_bool_iff. rewrite H15. apply Qle_refl.
  - unfold peak_delayed_rows. rewrite filter_In. rewrite Hd. intuition discriminate.
  - unfold peak_hour_delays. simpl fst. rewrite Hr. reflexivity.
Qed.

Lemma delay_threshold_15_disagree_witness :
  (dep_delay (scenario_row 15) == 15) /\ on_time (scenario_row 15) = 0%nat /\
  ~ In (scenario_row 15) (peak_delayed_rows "Delta Air Lines" [scenario_row 15]) /\
  fst (peak_hour_delays "Delta Air Lines" [scenario_row 15])
  = fst (peak_hour_delays "Delta Air Lines" []).
Proof.
  split; [reflexivity|].
  apply (delay_threshold_15_disagree "Delta Air Lines" [] (scenario_row 15)).
  reflexivity.
Defined.

Lemma qle_bool_mono (q a b : Q) :
  Qle_bool q a = true -> a <= b -> Qle_bool q b = true.
Proof.
  rewrite !Qle_bool_iff. intros H1 H2. eapply Qle_trans; eauto.
Qed.

(** C2: [pd.cut] with the edges of [delays_heatmap] and [right=True] puts
    every finite [dep_delay] in exactly one of the six bins
    [(-inf,0], (0,15], (15,30], (30,60], (60,120], (120,+inf)], each open on
    the left and closed on the right; the label it returns is that bin's; the
    delays 0, 15, 30, 60 and 120 fall in the lower of the two adjacent bins. *)
Theorem delay_bin_partition :
  (forall x : Q, exists i : nat,
     (i < 6)%nat /\ in_bin i x = true /\
     cut bins labels x = nth_error labels i /\
     (forall j, (j < 6)%nat -> in_bin j x = true -> j = i)) /\
  cut bins labels 0 = Some "Early/On time"%string /\
  cut bins labels 15 = Some "0–15 min"%string /\
  cut bins labels 30 = Some "15–30 min"%string /\
  cut bins labels 60 = Some "30–60 min"%string /\
  cut bins labels 120 = Some "1–2 hrs"%string.
Proof.
  split; [|repeat split; reflexivity].
  intro x.
  assert (M1 : Qle_bool x 0 = true -> Qle_bool x 15 = true)
    by (intro; eapply qle_bool_mono; [eassumption|discriminate]).
  assert (M2 : Qle_bool x 15 = true -> Qle_bool x 30 = true)
    by (intro; eapply qle_bool_mono; [eassumption|discriminate]).
  assert (M3 : Qle_bool x 30 = true -> Qle_bool x 60 = true)
    by (intro; eapply qle_bool_mono; [eassumption|discriminate]).
  assert (M4 : Qle_bool x 60 = true -> Qle_bool x 120 = true)
    by (intro; eapply qle_bool_mono; [eassumption|discriminate]).
  unfold in_bin, cut, Qltb; cbv -[Qle_bool].
  destruct (Qle_bool x 0) eqn:B0;
  [ exists 0%nat
  | destruct (Qle_bool x 15) eqn:B1;
    [ exists 1%nat
    | destruct (Qle_bool x 30) eqn:B2;
      [ exists 2%nat
      | destruct (Qle_bool x 60) eqn:B3;
        [ exists 3%nat
        | destruct (Qle_bool x 120) eqn:B4;
          [ exists 4%nat | exists 5%nat ]]]]];
  repeat match goal with
         | H : true = true -> _ |- _ => specialize (H eq_refl)
         | H : ?a = true -> ?b = true, E : ?a = true |- _ =>
             specialize (H E)
         end;
  repeat match goal with
         | H : ?b = true, E : ?b = false |- _ => congruence
         end;
  cbv -[Qle_bool];
  repeat match goal with
         | H : Qle_bool ?y ?c = _ |- context [Qle_bool ?y ?c] => rewrite H
         end;
  simpl; (split; [lia|split; [reflexivity|split; [reflexivity|]]]);
  intros [|[|[|[|[|[|?]]]]]] Hj; try lia; cbv -[Qle_bool];
  repeat match goal with
         | H : Qle_bool ?y ?c = _ |- context [Qle_bool ?y ?c] => rewrite H
         end; simpl; try (discriminate || reflexivity).
Qed.

(** C3: every row of the proportion matrix of [delays_heatmap] has the six
    bin labels as columns, in the fixed bin order, one finite fraction per
    bin (an empty bin has fraction 0), and its six fractions sum to 1. *)
Theorem delays_heatmap_rows {K : Type}
  (dec : forall x y : K, {x = y} + {x <> y}) (leb : K -> K -> bool)
  (var : flight -> K) (df : frame) (a : string) (row : list num) :
  In row (h_values (delays_heatmap dec leb var df a)) ->
  h_columns (delays_heatmap dec leb var df a) = labels /\
  List.length row = 6%nat /\
  Forall (fun v => exists q, v = Fin q) row /\
  num_eqQ (num_sum row) 1 = true.
Proof.
  intro H. split; [reflexivity|].
  unfold delays_heatmap, delay_counts in H; simpl in H.
  rewrite map_map in H. apply in_map_iff in H as [k [<- Hk]]. simpl.
  set (binned := filter _ _) in Hk |- *.
  pose proof (group_of_nonempty dec leb var binned k Hk) as Hne.
  rewrite <- sum_counts_length in Hne.
  destruct (normalize_row _ Hne) as [Hl [Hf Hs]].
  split; [|split; [exact Hf|exact Hs]].
  etransitivity; [exact Hl|]. apply length_map.
Qed.

Lemma delays_heatmap_rows_witness :
  In (normalize [0%nat; 80%nat; 0%nat; 0%nat; 20%nat; 0%nat])
     (h_values (delays_heatmap string_dec String.leb dep_iata scenario_df
                  "Delta Air Lines"))
  /\ List.length (normalize [0%nat; 80%nat; 0%nat; 0%nat; 20%nat; 0%nat]) = 6%nat.
Proof.
  assert (H : In (normalize [0%nat; 80%nat; 0%nat; 0%nat; 20%nat; 0%nat])
     (h_values (delays_heatmap string_dec String.leb dep_iata scenario_df
                  "Delta Air Lines"))) by (vm_compute; left; reflexivity).
  split; [exact H|].
  exact (proj1 (proj2 (delays_heatmap_rows string_dec String.leb dep_iata
                         scenario_df "Delta Air Lines" _ H))).
Defined.

(** C4: when the airline-wide mean delay [globalMean] (over the airline's
    non-cancelled, non-diverted rows) is positive, every airport row of
    [relative_delay] has finite [mean_delay] and [delay_ratio] with
    [delay_ratio * globalMean == mean_delay], and [delay_ratio > 1] exactly
    when [mean_delay > globalMean]. *)
Theorem relative_delay_ratio (df : frame) (a : string) (gm : Q)
  (ap : string) (md dr : num) :
  global_mean df a = Fin gm -> 0 < gm ->
  In (ap, md, dr) (relative_delay df a) ->
  exists mq rq, md = Fin mq /\ dr = Fin rq /\ rq * gm == mq /\
                (1 < rq <-> gm < mq).
Proof.
  intros Hg Hpos H. unfold relative_delay in H. unfold global_mean in Hg.
  apply in_map_iff in H as [k [Hk Hin]].
  injection Hk as <- <- <-. rewrite Hg.
  apply group_of_nonempty in Hin.
  set (g := group_of string_dec dep_airport k _) in *.
  set (mq := fold_right Qplus 0 (map dep_delay g) / qnat (List.length g)).
  assert (Hm : mean (map dep_delay g) = Fin mq).
  { unfold mean, num_div. rewrite length_map, (qnat_pos _ Hin). reflexivity. }
  rewrite Hm.
  assert (Hgz : ~ gm == 0) by (intro E; rewrite E in Hpos; apply (Qlt_irrefl 0 Hpos)).
  assert (Hgb : Qeq_bool gm 0 = false)
    by (apply not_true_iff_false; intro E; apply Qeq_bool_iff in E; contradiction).
  simpl. unfold num_div. rewrite Hgb.
  exists mq, (mq / gm). split; [reflexivity|]. split; [reflexivity|]. split.
  - field. exact Hgz.
  - split; intro E.
    + apply (Qmult_lt_r _ _ gm) in E; [|exact Hpos].
      setoid_replace (mq / gm * gm) with mq in E by (field; exact Hgz).
      rewrite Qmult_1_l in E. exact E.
    + apply Qlt_shift_div_l; [exact Hpos|]. rewrite Qmult_1_l. exact E.
Qed.

Lemma relative_delay_ratio_witness :
  global_mean relative_scenario "Delta Air Lines" = Fin (30 / 3) /\ 0 < 30 / 3 /\
  In ("P"%string, Fin (20 / 1), num_divn (Fin (20 / 1)) (Fin (30 / 3)))
     (relative_delay relative_scenario "Delta Air Lines") /\
  exists mq rq, Fin (20 / 1) = Fin mq /\
    num_divn (Fin (20 / 1)) (Fin (30 / 3)) = Fin rq /\ rq * (30 / 3) == mq /\
    (1 < rq <-> 30 / 3 < mq).
Proof.
  assert (Hg : global_mean relative_scenario "Delta Air Lines" = Fin (30 / 3))
    by (vm_compute; reflexivity).
  assert (Hp : 0 < 30 / 3) by (vm_compute; reflexivity).
  assert (Hi : In ("P"%string, Fin (20 / 1), num_divn (Fin (20 / 1)) (Fin (30 / 3)))
     (relative_delay relative_scenario "Delta Air Lines"))
    by (vm_compute; left; reflexivity).
  split; [exact Hg|]. split; [exact Hp|]. split; [exact Hi|].
  exact (relative_delay_ratio relative_scenario "Delta Air Lines" _ _ _ _ Hg Hp Hi).
Defined.

(** C1: every route returned by [top_delayed_routes] has a flight count
    strictly greater than the median flight count of all routes of the
    airline/status/country-scoped table, and its [delay_rate] is
    [delay_count / flight_count]; the result is sorted by descending
    [delay_rate]; and it is the "top 10 with ties" of the routes above the
    median: a route is returned exactly when it is above the median and fewer
    than 10 such routes have a strictly greater [delay_rate] (so every route
    tied with the 10th-ranked rate is kept). *)
Theorem top_delayed_routes_spec (df : frame) (a : string) (domestic : bool) :
  let route_df := route_table (route_scope df a domestic) in
  let top := top_delayed_routes df a domestic in
  (forall rt, In rt top ->
     exists m, median (map flight_count route_df) = Fin m /\
               m < qnat (flight_count rt) /\
               delay_rate rt = Fin (qnat (delay_count rt) / qnat (flight_count rt))) /\
  StronglySorted (fun x y => num_geb (delay_rate x) (delay_rate y) = true) top /\
  (forall rt, In rt top <->
     In rt (routes_above_median route_df) /\
     (List.length (filter (fun s => num_gtb (delay_rate s) (delay_rate rt))
                     (routes_above_median route_df)) < 10)%nat).
Proof.
  intros rd top.
  set (AM := routes_above_median rd).
  assert (Hrd : forall r, In r rd -> finite_rate r).
  { intros r Hr. destruct (route_table_In _ r Hr) as [_ E]. eexists; exact E. }
  assert (HAM : Forall finite_rate AM).
  { apply Forall_forall. intros r Hr. exact (above_median_finite rd r Hrd Hr). }
  assert (HsAM : Forall finite_rate (isort (key_ge rate_key) AM)).
  { apply Forall_forall. intros r Hr.
    apply (Permutation_in _ (isort_perm _ _)) in Hr.
    exact (proj1 (Forall_forall _ _) HAM r Hr). }
  assert (Htop : top = nlargest 10 (key_ge rate_key) (isort (key_ge rate_key) AM)).
  { unfold top, top_delayed_routes. fold rd. fold AM.
    rewrite (isort_ext finite_rate rate_ge (key_ge rate_key) rate_ge_key AM HAM).
    apply (nlargest_ext finite_rate _ _ rate_ge_key). exact HsAM. }
  assert (Hmem : forall rt, In rt top <->
            In rt AM /\ (List.length (above rate_key rt AM) < 10)%nat).
  { intro rt. rewrite Htop, (nlargest_In rate_key 10 _ rt) by lia.
    rewrite <- (above_perm rate_key rt _ _ (isort_perm (key_ge rate_key) AM)).
    split; intros [H1 H2]; split; try exact H2.
    - exact (Permutation_in _ (isort_perm _ _) H1).
    - exact (Permutation_in _ (Permutation_sym (isort_perm _ _)) H1). }
  assert (HtopAM : forall rt, In rt top -> In rt AM)
    by (intros rt H; apply Hmem in H; tauto).
  split; [|split].
  - intros rt Hrt. apply HtopAM in Hrt. unfold AM, routes_above_median in Hrt.
    apply filter_In in Hrt as [Hin Hgt].
    destruct (route_table_In _ rt Hin) as [_ Hrate].
    destruct (median_cases (map flight_count rd)) as [Hm|[m Hm]];
      rewrite Hm in Hgt; [discriminate|].
    exists m. split; [exact Hm|]. split; [|exact Hrate].
    unfold count_gt, Qltb in Hgt. apply negb_true_iff, not_true_iff_false in Hgt.
    apply Qnot_le_lt. intro C. apply Hgt, Qle_bool_iff, C.
  - assert (HS := nlargest_strongly_sorted rate_key 10 (isort (key_ge rate_key) AM)).
    rewrite <- Htop in HS.
    apply (StronglySorted_impl (key_desc rate_key) _ finite_rate top); [|
      apply Forall_forall; intros r Hr;
      exact (proj1 (Forall_forall _ _) HAM r (HtopAM r Hr))|exact HS].
    intros x y Hx Hy Hxy. change (rate_ge x y = true). rewrite rate_ge_key by assumption.
    unfold key_ge. apply Qle_bool_iff. exact Hxy.
  - intro rt. rewrite Hmem. fold AM.
    split; intros [Hin Hc]; split; try exact Hin;
      assert (Hrt := proj1 (Forall_forall _ _) HAM rt Hin);
      unfold above in *;
      (erewrite filter_ext_in; [exact Hc|]);
      intros s Hs; simpl;
      assert (Hfs := proj1 (Forall_forall _ _) HAM s Hs);
      rewrite rate_gt_key by assumption; reflexivity.
Qed.

(** C6 (as stated: fails).  The rows of the per-weekday table of
    [flight_volume_by_day] are not in Monday..Sunday order: with one flight
    on a Monday and one on a Friday, the table lists Friday first. *)
Lemma flight_volume_by_day_rows_not_monday_first :
  exists fig,
    flight_volume_by_day sample_country_db weekday_df "Delta Air Lines" "world"
    = Some fig /\
    map fst (grouped_df fig) = ["Friday"%string; "Monday"%string] /\
    ~ StronglySorted (fun x y => (weekday_rank x < weekday_rank y)%nat)
        (map fst (grouped_df fig)).
Proof.
  eexists. split; [vm_compute; reflexivity|]. split; [reflexivity|].
  intro H. apply StronglySorted_inv in H as [_ H].
  inversion H as [|? ? Hlt _]. cbv in Hlt. lia.
Qed.

(** C6 (amended): whenever [flight_volume_by_day] returns, the rows of its
    per-weekday table are in the groupby order of the day names (sorted as
    strings, so Friday, Monday, Saturday, Sunday, Thursday, Tuesday,
    Wednesday), while the weekday column's categories and the chart's x-axis
    [categoryarray] are both Monday..Sunday. *)
Theorem flight_volume_by_day_order (db : country_db) (df : frame)
  (a region : string) (fig : volume_figure) :
  flight_volume_by_day db df a region = Some fig ->
  Sorted (fun x y => String.leb x y = true) (map fst (grouped_df fig)) /\
  weekday_categories fig = weekday_order /\
  x_categoryarray fig = weekday_order.
Proof.
  unfold flight_volume_by_day.
  destruct (map_option _ _) as [days|]; [|discriminate].
  intro H. injection H as <-. simpl. split; [|split; reflexivity].
  unfold group_size. rewrite map_map. simpl. rewrite map_id.
  apply isort_sorted_bool, string_leb_total.
Qed.

Lemma flight_volume_by_day_order_witness :
  (exists fig, flight_volume_by_day sample_country_db weekday_df
                 "Delta Air Lines" "world" = Some fig) /\
  weekday_categories (mkVolume [("Friday"%string, 1%nat); ("Monday"%string, 1%nat)]
                        weekday_order weekday_order) = weekday_order.
Proof.
  assert (H : flight_volume_by_day sample_country_db weekday_df
                "Delta Air Lines" "world"
              = Some (mkVolume [("Friday"%string, 1%nat); ("Monday"%string, 1%nat)]
                        weekday_order weekday_order))
    by (vm_compute; reflexivity).
  split; [eexists; exact H|].
  exact (proj1 (proj2 (flight_volume_by_day_order _ _ _ _ _ H))).
Defined.

(** C7 (code defect): [select_date] writes the converted [flight_date]
    column back into the caller's DataFrame: on the table as read from the
    CSV (dates as text) the caller's frame no longer holds its former
    values after the call. *)
Lemma select_date_writes_caller_frame :
  exists after selected,
    select_date raw_df 19723 19723 = Some (after, selected) /\
    after = [dated_row (DTs 19723) "US"] /\
    after <> raw_df.
Proof.
  do 2 eexists. split; [vm_compute; reflexivity|].
  split; [reflexivity|discriminate].
Qed.

(** C8: the country classifier never fails: it returns ["usa"] exactly when
    the country is ["US"] (given that pycountry resolves ["US"] and that no
    continent name lowercases to ["usa"]), the lowercased continent name for
    any other resolvable country, and ["other"] whenever a lookup fails;
    hence [region = "usa"] keeps only rows whose [arr_country] is ["US"]. *)
Theorem country_to_continent_spec (db : country_db)
  (H_us : exists a2 cc n,
      countries_lookup_alpha_2 db "US" = Some a2 /\
      country_alpha2_to_continent_code db a2 = Some cc /\
      convert_continent_code_to_continent_name db cc = Some n)
  (H_names : forall cc n,
      convert_continent_code_to_continent_name db cc = Some n ->
      lower n <> "usa"%string) :
  (forall c, country_to_continent db c = "usa"%string <-> c = "US"%string) /\
  (forall c a2 cc n, c <> "US"%string ->
     countries_lookup_alpha_2 db c = Some a2 ->
     country_alpha2_to_continent_code db a2 = Some cc ->
     convert_continent_code_to_continent_name db cc = Some n ->
     country_to_continent db c = lower n) /\
  (forall c,
     (countries_lookup_alpha_2 db c = None \/
      (exists a2, countries_lookup_alpha_2 db c = Some a2 /\
                  country_alpha2_to_continent_code db a2 = None) \/
      (exists a2 cc, countries_lookup_alpha_2 db c = Some a2 /\
                     country_alpha2_to_continent_code db a2 = Some cc /\
                     convert_continent_code_to_continent_name db cc = None)) ->
     country_to_continent db c = "other"%string) /\
  (forall df a r, In r (region_rows db df a "usa") -> arr_country r = "US"%string).
Proof.
  assert (Husa : forall c, country_to_continent db c = "usa"%string -> c = "US"%string).
  { intro c. unfold country_to_continent.
    destruct (countries_lookup_alpha_2 db c) as [a2|]; [|discriminate].
    destruct (country_alpha2_to_continent_code db a2) as [cc|]; [|discriminate].
    destruct (convert_continent_code_to_continent_name db cc) as [n|] eqn:En;
      [|discriminate].
    destruct (String.eqb c "US") eqn:Ec; [intros _; apply String.eqb_eq, Ec|].
    intro E. exfalso. exact (H_names cc n En E). }
  split; [|split; [|split]].
  - intro c. split; [apply Husa|intros ->].
    destruct H_us as [a2 [cc [n [E1 [E2 E3]]]]].
    unfold country_to_continent. rewrite E1, E2, E3. reflexivity.
  - intros c a2 cc n Hc E1 E2 E3. unfold country_to_continent.
    rewrite E1, E2, E3. apply String.eqb_neq in Hc. rewrite Hc. reflexivity.
  - intros c [E|[[a2 [E1 E2]]|[a2 [cc [E1 [E2 E3]]]]]];
      unfold country_to_continent; [rewrite E|rewrite E1, E2|rewrite E1, E2, E3];
      reflexivity.
  - intros df a r Hr. unfold region_rows in Hr. simpl in Hr.
    apply filter_In in Hr as [_ Hr]. apply Husa, String.eqb_eq, Hr.
Qed.

Lemma country_to_continent_spec_witness :
  country_to_continent sample_country_db "US" = "usa"%string /\
  country_to_continent sample_country_db "FR" = "europe"%string /\
  country_to_continent sample_country_db "Atlantis" = "other"%string /\
  (forall c, country_to_continent sample_country_db c = "usa"%string <->
             c = "US"%string).
Proof.
  split; [reflexivity|]. split; [reflexivity|]. split; [reflexivity|].
  refine (proj1 (country_to_continent_spec sample_country_db _ _)).
  - exists "US"%string, "NA"%string, "North America"%string.
    split; [reflexivity|]. split; reflexivity.
  - intros cc n. cbn [convert_continent_code_to_continent_name sample_country_db].
    repeat match goal with
           | |- context [String.eqb cc ?s] => destruct (String.eqb cc s)
           end;
      intro E; try discriminate; injection E as <-; vm_compute; discriminate.
Defined.

(** ** Further properties of the dashboard functions *)

(** X1 (cancelled_flights): the rows of the cancellation table are in
    non-increasing order of [flight_count], whatever the order of ties. *)
Theorem cancelled_counts_sorted (df : frame) (a : string) :
  StronglySorted (fun x y => (snd y <= snd x)%nat) (cancelled_counts df a).
Proof.
  unfold cancelled_counts.
  set (l := group_size _ _ _).
  assert (Hs := isort_sorted_bool
                  (fun x y : (string * string) * nat => Nat.leb (snd y) (snd x))
                  ltac:(intros x y H; apply Nat.leb_gt in H; apply Nat.leb_le; lia) l).
  apply Sorted_StronglySorted in Hs;
    [|intros x y z H1 H2; apply Nat.leb_le in H1, H2; apply Nat.leb_le; lia].
  eapply (StronglySorted_impl _ _ (fun _ => True)); [|apply Forall_forall; auto|exact Hs].
  intros x y _ _ H. apply Nat.leb_le. exact H.
Qed.

(** X2 (cancelled_flights): the table has one row per departure airport
    [(dep_iata, dep_airport)] with a cancelled flight of the airline, its
    [flight_count] is the number of those cancelled flights, and the counts
    add up to the number of cancelled flights of the airline. *)
Theorem cancelled_counts_spec (df : frame) (a : string) :
  NoDup (map fst (cancelled_counts df a)) /\
  (forall k c, In (k, c) (cancelled_counts df a) ->
     (1 <= c)%nat /\
     c = List.length
           (filter (fun r => String.eqb (flight_status r) "cancelled"
                             && String.eqb (airline r) a
                             && (if airport_key_eq_dec (dep_iata r, dep_airport r) k
                                 then true else false)) df)) /\
  (forall r, In r df -> String.eqb (flight_status r) "cancelled" = true ->
     airline r = a -> exists c, In ((dep_iata r, dep_airport r), c) (cancelled_counts df a)) /\
  sum_nat (map snd (cancelled_counts df a))
  = List.length (filter (fun r => String.eqb (flight_status r) "cancelled"
                                  && String.eqb (airline r) a) df).
Proof.
  unfold cancelled_counts.
  set (P := fun r => String.eqb (flight_status r) "cancelled" && String.eqb (airline r) a).
  set (kf := fun r : flight => (dep_iata r, dep_airport r)).
  set (gs := group_size airport_key_eq_dec airport_key_leb (map kf (filter P df))).
  set (le := fun x y : (string * string) * nat => Nat.leb (snd y) (snd x)).
  assert (Hp : Permutation (isort le gs) gs) by apply isort_perm.
  split; [|split; [|split]].
  - eapply Permutation_NoDup; [symmetry; apply Permutation_map, Hp|].
    unfold gs. rewrite group_size_fst. apply group_keys_NoDup.
  - intros k c Hin. apply (Permutation_in _ Hp) in Hin.
    apply group_size_In in Hin as [Hk ->].
    rewrite group_of_length_map. split.
    + apply (group_of_nonempty _ airport_key_leb). apply group_keys_In.
      apply in_map_iff in Hk as [r [Hr Hrf]]. eauto.
    + unfold group_of. rewrite filter_and. reflexivity.
  - intros r Hr Hs Ha. eexists. apply (Permutation_in _ (Permutation_sym Hp)).
    apply group_size_In. split; [|reflexivity].
    change (dep_iata r, dep_airport r) with (kf r).
    apply in_map, filter_In. split; [exact Hr|]. unfold P. rewrite Hs, Ha, String.eqb_refl.
    reflexivity.
  - rewrite (sum_nat_perm _ _ (Permutation_map snd Hp)). unfold gs.
    rewrite group_size_sum, length_map. reflexivity.
Qed.

(** X3 (aggregate_delay_metric): the [total_flights] of the groups add up to
    the number of rows kept by the status and arrival filters, and the
    [ontime_count] of the groups add up to the number of those rows with
    [dep_delay < 15]. *)
Theorem aggregate_delay_metric_counts {K : Type}
  (dec : forall x y : K, {x = y} + {x <> y}) (leb : K -> K -> bool)
  (key : flight -> K) (df : frame) (arr : option (list string)) :
  sum_nat (map total_flights (aggregate_delay_metric dec leb key df arr))
  = List.length (arr_filter arr (filter operational df)) /\
  sum_nat (map ontime_count (aggregate_delay_metric dec leb key df arr))
  = List.length (filter (fun r => Qltb (dep_delay r) 15)
                   (arr_filter arr (filter operational df))).
Proof.
  unfold aggregate_delay_metric. rewrite !map_map. simpl. split.
  - apply groups_count.
  - rewrite <- sum_nat_indicator.
    rewrite <- (groups_sum dec leb key on_time).
    f_equal. apply map_ext. intro k. apply sum_nat_fold.
Qed.

(** X4 (aggregate_delay_metric): in every group [ontime_count] is at most
    [total_flights], and [pct_ontime] is a finite percentage in [0, 100]. *)
Theorem aggregate_delay_metric_pct_range {K : Type}
  (dec : forall x y : K, {x = y} + {x <> y}) (leb : K -> K -> bool)
  (key : flight -> K) (df : frame) (arr : option (list string)) (g : metric_row K) :
  In g (aggregate_delay_metric dec leb key df arr) ->
  (ontime_count g <= total_flights g)%nat /\
  exists q, pct_ontime g = Fin q /\ 0 <= q /\ q <= 100.
Proof.
  unfold aggregate_delay_metric. intro H.
  apply in_map_iff in H as [k [<- Hk]].
  apply group_of_nonempty in Hk.
  unfold metric_of; simpl. rewrite sum_nat_fold.
  set (g := group_of dec key k _) in *.
  assert (Hle : (sum_nat (map on_time g) <= List.length g)%nat).
  { clear. induction g as [|r t IH]; simpl; [lia|].
    unfold on_time at 1. destruct (Qltb _ _); lia. }
  split; [exact Hle|].
  unfold num_div. rewrite (qnat_pos _ Hk). simpl.
  eexists; split; [reflexivity|].
  destruct (qnat_ratio_unit _ _ Hle Hk) as [H0 H1]. split.
  - apply Qmult_le_0_compat; [exact H0|discriminate].
  - rewrite <- (Qmult_1_l 100) at 2. apply Qmult_le_compat_r; [exact H1|discriminate].
Qed.

Lemma aggregate_delay_metric_pct_range_witness :
  exists g, In g (aggregate_delay_metric string_dec String.leb airline scenario_df None) /\
    (ontime_count g <= total_flights g)%nat /\
    exists q, pct_ontime g = Fin q /\ 0 <= q /\ q <= 100.
Proof.
  set (d := mkMetric ""%string 0%nat 0%nat NaN NaN).
  exists (hd d (aggregate_delay_metric string_dec String.leb airline scenario_df None)).
  assert (H : In (hd d (aggregate_delay_metric string_dec String.leb airline scenario_df None))
                 (aggregate_delay_metric string_dec String.leb airline scenario_df None))
    by (vm_compute; left; reflexivity).
  split; [exact H|]. exact (aggregate_delay_metric_pct_range _ _ _ _ _ _ H).
Defined.



(** X7 (delays_heatmap): every finite delay falls in a bin, so the row
    index of the proportion matrix lists each value of [var] found among the
    airline's non-cancelled, non-diverted rows exactly once, and nothing else. *)
Theorem delays_heatmap_index {K : Type}
  (dec : forall x y : K, {x = y} + {x <> y}) (leb : K -> K -> bool)
  (var : flight -> K) (df : frame) (a : string) :
  NoDup (h_index (delays_heatmap dec leb var df a)) /\
  (forall k, In k (h_index (delays_heatmap dec leb var df a)) <->
     exists r, In r df /\ airline_operational a r = true /\ var r = k).
Proof.
  unfold delays_heatmap, delay_counts; simpl. rewrite map_map. simpl. rewrite map_id.
  rewrite (filter_all (fun r => if delay_bin r then true else false)).
  2:{ intros r _. destruct (delay_bin_some r) as [l ->]. reflexivity. }
  split; [apply group_keys_NoDup|].
  intro k. rewrite group_keys_In. split.
  - intros [r [Hr Hk]]. apply filter_In in Hr as [Hr Ha]. eauto.
  - intros [r [Hr [Ha Hk]]]. exists r. split; [apply filter_In; auto|exact Hk].
Qed.

(** X8 (delays_heatmap): every cell of the proportion matrix is a finite
    proportion between 0 and 1. *)
Theorem delays_heatmap_cells_unit {K : Type}
  (dec : forall x y : K, {x = y} + {x <> y}) (leb : K -> K -> bool)
  (var : flight -> K) (df : frame) (a : string) (row : list num) (v : num) :
  In row (h_values (delays_heatmap dec leb var df a)) -> In v row ->
  exists q, v = Fin q /\ 0 <= q /\ q <= 1.
Proof.
  intros H Hv.
  unfold delays_heatmap, delay_counts in H; simpl in H.
  rewrite map_map in H. apply in_map_iff in H as [k [<- Hk]]. cbn [snd] in Hv.
  set (binned := filter _ _) in Hk, Hv.
  pose proof (group_of_nonempty dec leb var binned k Hk) as Hne.
  rewrite <- sum_counts_length in Hne.
  exact (normalize_unit _ v Hne Hv).
Qed.

Lemma delays_heatmap_cells_unit_witness :
  exists row v, In row (h_values (delays_heatmap string_dec String.leb dep_iata scenario_df
                                   "Delta Air Lines")) /\ In v row /\
    exists q, v = Fin q /\ 0 <= q /\ q <= 1.
Proof.
  set (rows := h_values (delays_heatmap string_dec String.leb dep_iata scenario_df
                           "Delta Air Lines")).
  exists (hd [] rows), (nth 1 (hd [] rows) NaN).
  assert (H1 : In (hd [] rows) rows) by (vm_compute; left; reflexivity).
  assert (H2 : In (nth 1 (hd [] rows) NaN) (hd [] rows))
    by (vm_compute; right; left; reflexivity).
  split; [exact H1|split; [exact H2|]].
  exact (delays_heatmap_cells_unit _ _ _ _ _ _ _ H1 H2).
Defined.

(** X9 (top_delayed_routes): every route returned has at least one flight,
    no more delayed flights than flights, and a finite [delay_rate] between
    0 and 1. *)
Theorem top_delayed_routes_rate_unit (df : frame) (a : string) (domestic : bool)
  (rt : route) :
  In rt (top_delayed_routes df a domestic) ->
  (1 <= flight_count rt)%nat /\ (delay_count rt <= flight_count rt)%nat /\
  exists q, delay_rate rt = Fin q /\ 0 <= q /\ q <= 1.
Proof.
  unfold top_delayed_routes. intro H.
  apply nlargest_incl, In_isort in H.
  unfold routes_above_median in H. apply filter_In in H as [H _].
  destruct (route_table_In _ _ H) as [H1 Hr].
  pose proof (route_table_delay_le _ _ H) as Hd.
  split; [exact H1|split; [exact Hd|]].
  eexists; split; [exact Hr|]. apply qnat_ratio_unit; assumption.
Qed.

Lemma top_delayed_routes_rate_unit_witness :
  exists rt, In rt (top_delayed_routes routes_sample "Delta Air Lines" true) /\
    (1 <= flight_count rt)%nat /\ (delay_count rt <= flight_count rt)%nat /\
    exists q, delay_rate rt = Fin q /\ 0 <= q /\ q <= 1.
Proof.
  set (d := mkRoute (""%string, ""%string, ""%string, ""%string) 0%nat 0%nat NaN).
  exists (hd d (top_delayed_routes routes_sample "Delta Air Lines" true)).
  assert (H : In (hd d (top_delayed_routes routes_sample "Delta Air Lines" true))
                 (top_delayed_routes routes_sample "Delta Air Lines" true))
    by (vm_compute; left; reflexivity).
  split; [exact H|]. exact (top_delayed_routes_rate_unit _ _ _ _ H).
Defined.

(** X10 (top_delayed_routes): the domestic and the international route
    tables together count every non-cancelled, non-diverted flight of the
    airline once, and every such flight delayed by more than 60 minutes once. *)
Theorem route_tables_conserve (df : frame) (a : string) :
  (sum_nat (map flight_count (route_table (route_scope df a true)))
   + sum_nat (map flight_count (route_table (route_scope df a false))))%nat
  = List.length (filter (airline_operational a) df) /\
  (sum_nat (map delay_count (route_table (route_scope df a true)))
   + sum_nat (map delay_count (route_table (route_scope df a false))))%nat
  = List.length (filter (fun r => Qltb 60 (dep_delay r))
                   (filter (airline_operational a) df)).
Proof.
  rewrite !(proj1 (route_table_counts _)), !(proj2 (route_table_counts _)).
  unfold route_scope. simpl. split.
  - rewrite <- !sum_nat_ones. apply sum_nat_filter_split.
  - rewrite <- sum_nat_indicator. apply (sum_nat_filter_split is_delayed).
Qed.

(** X11 (top_delayed_routes): when all routes in scope have the same
    number of flights (for instance a single route), no route has a count
    above the median and the result is empty. *)
Theorem top_delayed_routes_uniform_empty (df : frame) (a : string) (domestic : bool) :
  (forall x y, In x (route_table (route_scope df a domestic)) ->
     In y (route_table (route_scope df a domestic)) -> flight_count x = flight_count y) ->
  top_delayed_routes df a domestic = [].
Proof.
  intro Hu. unfold top_delayed_routes, routes_above_median.
  set (rd := route_table _) in *.
  destruct rd as [|x t] eqn:Erd; [reflexivity|].
  destruct (median_const (map flight_count (x :: t)) (flight_count x))
    as [q [Hm Hq]]; [discriminate| |].
  { intros c Hc. apply in_map_iff in Hc as [y [<- Hy]].
    apply Hu; [exact Hy|left; reflexivity]. }
  rewrite filter_none; [reflexivity|].
  intros y Hy. rewrite Hm. simpl. unfold Qltb.
  rewrite (Hu y x Hy (or_introl eq_refl)).
  apply negb_false_iff, Qle_bool_iff. rewrite Hq. apply Qle_refl.
Qed.

Lemma top_delayed_routes_uniform_empty_witness :
  top_delayed_routes scenario_df "Delta Air Lines" true = [].
Proof.
  apply top_delayed_routes_uniform_empty.
  intros x y Hx Hy. vm_compute in Hx, Hy.
  destruct Hx as [<-|[]]; destruct Hy as [<-|[]]; reflexivity.
Defined.



(** X12 (relative_delay): when the airline-wide mean delay is 0, no airport
    gets a finite [delay_ratio]: each ratio is NaN, +inf or -inf. *)
Theorem relative_delay_zero_mean (df : frame) (a ap : string) (md dr : num) :
  num_eqQ (global_mean df a) 0 = true ->
  In (ap, md, dr) (relative_delay df a) ->
  dr = NaN \/ dr = PInf \/ dr = NInf.
Proof.
  unfold relative_delay, global_mean. intros Hg H.
  apply in_map_iff in H as [k [E _]].
  injection E as _ _ Edr. rewrite <- Edr.
  destruct (mean (map dep_delay (filter _ df))) as [g| | |]; [|discriminate..].
  simpl in Hg.
  destruct (mean (map dep_delay (group_of _ _ _ _))) as [q| | |]; simpl;
    [unfold num_div; rewrite Hg| | |];
    repeat match goal with |- context [if ?b then _ else _] => destruct b end; auto.
Qed.

Lemma relative_delay_zero_mean_witness :
  num_eqQ (global_mean [airport_row "P" 10; airport_row "Q" (-10)] "Delta Air Lines") 0
    = true /\
  In ("P"%string, Fin 10, PInf)
     (relative_delay [airport_row "P" 10; airport_row "Q" (-10)] "Delta Air Lines") /\
  (PInf = NaN \/ PInf = PInf \/ PInf = NInf).
Proof.
  assert (H1 : num_eqQ (global_mean [airport_row "P" 10; airport_row "Q" (-10)]
                          "Delta Air Lines") 0 = true) by (vm_compute; reflexivity).
  assert (H2 : In ("P"%string, Fin 10, PInf)
     (relative_delay [airport_row "P" 10; airport_row "Q" (-10)] "Delta Air Lines"))
    by (vm_compute; left; reflexivity).
  split; [exact H1|split; [exact H2|]].
  exact (relative_delay_zero_mean _ _ _ _ _ H1 H2).
Defined.

(** X13 (peak_hour_delays): every bar of delayed flights at an hour [h]
    has a point on the total-flights line at the same hour, and the bar is
    not higher than that point. *)
Theorem peak_hour_delays_bounded (df : frame) (a : string) (h : Z) (g : string) (c : nat) :
  In ((h, g), c) (fst (peak_hour_delays a df)) ->
  exists t, In (h, t) (snd (peak_hour_delays a df)) /\ (c <= t)%nat.
Proof.
  unfold peak_hour_delays, peak_delayed_rows; simpl. intro H.
  apply group_size_In in H as [Hk ->].
  set (fc := filter (airline_operational a) df) in *.
  exists (List.length (group_of Z.eq_dec (fun x => x) h (some_keys hour fc))).
  split.
  - apply group_size_In. split; [|reflexivity].
    apply some_keys_In in Hk as [x [Hx Hf]].
    apply some_keys_In. exists x. apply filter_In in Hx as [Hx _]. split; [exact Hx|].
    destruct (hour x); [|discriminate]. simpl in Hf. congruence.
  - rewrite !some_keys_count, filter_and. apply length_filter_mono.
    intros x _ Hx. apply andb_prop in Hx as [_ Hx].
    destruct (hour x) as [h'|]; [|discriminate]. cbn [option_map] in Hx.
    destruct (hour_group_eq_dec (h', country_group x) (h, g)) as [E|]; [|discriminate].
    injection E as ->. destruct (Z.eq_dec h h); [reflexivity|congruence].
Qed.

Lemma peak_hour_delays_bounded_witness :
  In ((8%Z, "Domestic"%string), 20%nat) (fst (peak_hour_delays "Delta Air Lines" scenario_df)) /\
  exists t, In (8%Z, t) (snd (peak_hour_delays "Delta Air Lines" scenario_df)) /\ (20 <= t)%nat.
Proof.
  assert (H : In ((8%Z, "Domestic"%string), 20%nat)
                 (fst (peak_hour_delays "Delta Air Lines" scenario_df)))
    by (vm_compute; left; reflexivity).
  split; [exact H|]. exact (peak_hour_delays_bounded _ _ _ _ _ H).
Defined.

(** X14 (peak_hour_delays): the total-flights line counts each of the
    airline's non-cancelled, non-diverted flights with a known hour once,
    and the delayed bars count each of those flights delayed by more than
    15 minutes once. *)
Theorem peak_hour_delays_totals (df : frame) (a : string) :
  sum_nat (map snd (snd (peak_hour_delays a df)))
  = List.length (filter (fun r => if hour r then true else false)
                   (filter (airline_operational a) df)) /\
  sum_nat (map snd (fst (peak_hour_delays a df)))
  = List.length (filter (fun r => if hour r then true else false)
                   (filter (fun r => Qltb 15 (dep_delay r))
                      (filter (airline_operational a) df))).
Proof.
  unfold peak_hour_delays, peak_delayed_rows; simpl.
  rewrite !group_size_sum, !some_keys_length. split; [reflexivity|].
  f_equal. apply filter_ext. intro r. destruct (hour r); reflexivity.
Qed.


(** X16 (flight_volume_by_day): on success, [grouped_df] has at most one
    row per weekday name, each with a positive count, and the counts add
    up to the number of rows kept by the airline, status and region filters. *)
Theorem flight_volume_by_day_counts (db : country_db) (df : frame) (a region : string)
  (fig : volume_figure) :
  flight_volume_by_day db df a region = Some fig ->
  NoDup (map fst (grouped_df fig)) /\
  (forall d c, In (d, c) (grouped_df fig) -> In d weekday_order /\ (1 <= c)%nat) /\
  sum_nat (map snd (grouped_df fig)) = List.length (region_rows db df a region).
Proof.
  unfold flight_volume_by_day. destruct (map_option _ _) as [days|] eqn:E; [|discriminate].
  intro H. injection H as <-. simpl.
  destruct (map_option_Some _ _ _ E) as [Hl Hi].
  split; [|split].
  - rewrite group_size_fst. apply group_keys_NoDup.
  - intros d c Hd. apply group_size_In in Hd as [Hd ->]. split.
    + destruct (Hi d Hd) as [x [_ Hx]].
      destruct (flight_date x); [discriminate|]. injection Hx as <-. apply day_name_In.
    + apply (group_of_nonempty _ String.leb). apply group_keys_In. eauto.
  - rewrite group_size_sum. exact Hl.
Qed.

Lemma flight_volume_by_day_counts_witness :
  flight_volume_by_day sample_country_db weekday_df "Delta Air Lines" "world"
  = Some (mkVolume [("Friday"%string, 1%nat); ("Monday"%string, 1%nat)]
            weekday_order weekday_order) /\
  sum_nat (map snd [("Friday"%string, 1%nat); ("Monday"%string, 1%nat)])
  = List.length (region_rows sample_country_db weekday_df "Delta Air Lines" "world").
Proof.
  assert (H : flight_volume_by_day sample_country_db weekday_df "Delta Air Lines" "world"
              = Some (mkVolume [("Friday"%string, 1%nat); ("Monday"%string, 1%nat)]
                        weekday_order weekday_order)) by (vm_compute; reflexivity).
  split; [exact H|].
  exact (proj2 (proj2 (flight_volume_by_day_counts _ _ _ _ _ H))).
Defined.

(** X17 (select_date): on success, the returned frame holds exactly the rows
    of the converted caller frame whose [flight_date] lies in
    [start_date, end_date] (inclusive; a single day when the two are equal),
    and every [flight_date] of the caller frame is now a datetime. *)
Theorem select_date_range (df after out : frame) (s e : Z) :
  select_date df s e = Some (after, out) ->
  Forall (fun r => exists d, flight_date r = DTs d) after /\
  (forall r, In r out <->
     In r after /\ exists d, flight_date r = DTs d /\ (s <= d <= e)%Z).
Proof.
  unfold select_date. destruct (to_datetime_column df) as [conv|] eqn:E; [|discriminate].
  intro H. injection H as <- <-.
  destruct (to_datetime_column_Some _ _ E) as [Hf _]. split; [exact Hf|].
  intro r. rewrite filter_In. split.
  - intros [Hr Hk]. split; [exact Hr|].
    destruct (flight_date r) as [|d]; [discriminate|]. exists d. split; [reflexivity|].
    destruct (Z.eqb s e) eqn:Ese.
    + apply Z.eqb_eq in Ese, Hk. lia.
    + apply andb_prop in Hk as [H1 H2]. apply Z.leb_le in H1, H2. lia.
  - intros [Hr [d [Hd Hb]]]. split; [exact Hr|]. rewrite Hd.
    destruct (Z.eqb s e) eqn:Ese.
    + apply Z.eqb_eq in Ese. apply Z.eqb_eq. lia.
    + apply andb_true_intro. split; apply Z.leb_le; lia.
Qed.

Lemma select_date_range_witness :
  select_date raw_df 19723 19723
  = Some ([dated_row (DTs 19723) "US"], [dated_row (DTs 19723) "US"]) /\
  In (dated_row (DTs 19723) "US") [dated_row (DTs 19723) "US"].
Proof.
  assert (H : select_date raw_df 19723 19723
              = Some ([dated_row (DTs 19723) "US"], [dated_row (DTs 19723) "US"]))
    by (vm_compute; reflexivity).
  split; [exact H|].
  apply (proj2 (proj2 (select_date_range _ _ _ _ _ H) _)).
  split; [left; reflexivity|]. exists 19723%Z. split; [reflexivity|lia].
Defined.

(** X18 (select_date): the call only rewrites the [flight_date] column of
    the caller's frame: the rows keep their order and every other column. *)
Theorem select_date_other_columns (df after out : frame) (s e : Z) :
  select_date df s e = Some (after, out) ->
  map (fun r => (hour r, airline r, dep_iata r, dep_airport r, arr_iata r,
                 arr_airport r, arr_country r, dep_delay r, flight_status r)) after
  = map (fun r => (hour r, airline r, dep_iata r, dep_airport r, arr_iata r,
                   arr_airport r, arr_country r, dep_delay r, flight_status r)) df.
Proof.
  unfold select_date. destruct (to_datetime_column df) as [conv|] eqn:E; [|discriminate].
  intro H. injection H as <- _. exact (proj2 (to_datetime_column_Some _ _ E)).
Qed.

Lemma select_date_other_columns_witness :
  select_date raw_df 19723 19723
  = Some ([dated_row (DTs 19723) "US"], [dated_row (DTs 19723) "US"]) /\
  List.length [dated_row (DTs 19723) "US"] = List.length raw_df.
Proof.
  assert (H : select_date raw_df 19723 19723
              = Some ([dated_row (DTs 19723) "US"], [dated_row (DTs 19723) "US"]))
    by (vm_compute; reflexivity).
  split; [exact H|].
  rewrite <- (length_map (fun r => (hour r, airline r, dep_iata r, dep_airport r,
    arr_iata r, arr_airport r, arr_country r, dep_delay r, flight_status r))).
  rewrite (select_date_other_columns _ _ _ _ _ H). apply length_map.
Defined.

(** X19 (select_date, as called from main): once [flight_date] holds
    datetimes, as after the conversion in [main], the call succeeds and
    leaves the caller's frame as it was; so a second call on the frame a
    first call returned is idempotent on it. *)
Theorem select_date_converted_unchanged (df : frame) (s e : Z) :
  (forall r, In r df -> exists d, flight_date r = DTs d) ->
  exists out, select_date df s e = Some (df, out).
Proof.
  intro H. unfold select_date. rewrite (to_datetime_column_converted _ H). eauto.
Qed.

Lemma select_date_converted_unchanged_witness :
  exists out, select_date weekday_df 19723 19727 = Some (weekday_df, out).
Proof.
  apply select_date_converted_unchanged.
  intros r [<-|[<-|[]]]; eexists; reflexivity.
Defined.

(** X20 (top_delayed_routes): the strict [flight_count > median] filter
    keeps at most half of the routes. *)
Theorem routes_above_median_half (rd : list route) :
  (2 * List.length (routes_above_median rd) <= List.length rd)%nat.
Proof.
  unfold routes_above_median.
  rewrite <- (length_filter_map (count_gt (median (map flight_count rd))) flight_count).
  rewrite <- (length_map flight_count rd).
  apply count_gt_median_half.
Qed.

(** X21 (main): the "Total Flights" metric of the airline is the sum of
    its "Cancelled Flights" and "Diverted Flights" metrics and of the
    number of rows the operational charts use; the "Cancelled Flights"
    metric is the total of the [flight_count] column of the pie chart of
    [cancelled_flights]. *)
Theorem header_metrics_balance (filtered_df : frame) (a : string) :
  let '(total, cancelled, diverted) := header_metrics filtered_df a in
  total = (cancelled + diverted
           + List.length (filter (airline_operational a) filtered_df))%nat /\
  cancelled = sum_nat (map snd (cancelled_counts filtered_df a)).
Proof.
  unfold header_metrics. split.
  - induction filtered_df as [|r t IH]; simpl; [reflexivity|].
    unfold airline_operational at 1, operational at 1.
    destruct (String.eqb (airline r) a); simpl;
      [|rewrite !andb_false_r; simpl; exact IH].
    rewrite !andb_true_r.
    destruct (String.eqb (flight_status r) "cancelled") eqn:Ec;
      destruct (String.eqb (flight_status r) "diverted") eqn:Ed; simpl; try lia.
    apply String.eqb_eq in Ec, Ed. congruence.
  - unfold cancelled_counts.
    rewrite (sum_nat_perm _ _ (Permutation_map snd (isort_perm _ _))).
    rewrite group_size_sum, length_map. reflexivity.
Qed.

(** X22 (main): the frame returned by a successful [select_date] holds
    datetimes only, so [flight_volume_by_day] never fails on it, whatever
    the airline and region. *)
Theorem select_date_then_volume (db : country_db) (df after out : frame) (s e : Z)
  (a region : string) :
  select_date df s e = Some (after, out) ->
  exists fig, flight_volume_by_day db out a region = Some fig.
Proof.
  intro H. unfold flight_volume_by_day.
  destruct (map_option _ _) as [days|] eqn:E; [eauto|].
  exfalso. apply map_option_None in E as [x [Hx Hn]].
  apply region_rows_incl in Hx as [Hx _].
  destruct (select_date_dates _ _ _ _ _ x H Hx) as [d Hd].
  rewrite Hd in Hn. discriminate.
Qed.

Lemma select_date_then_volume_witness :
  select_date raw_df 19723 19727
  = Some ([dated_row (DTs 19723) "US"], [dated_row (DTs 19723) "US"]) /\
  exists fig, flight_volume_by_day sample_country_db [dated_row (DTs 19723) "US"]
                "Delta Air Lines" "usa" = Some fig.
Proof.
  assert (H : select_date raw_df 19723 19727
              = Some ([dated_row (DTs 19723) "US"], [dated_row (DTs 19723) "US"]))
    by (vm_compute; reflexivity).
  split; [exact H|]. exact (select_date_then_volume _ _ _ _ _ _ _ _ H).
Defined.

(** X23 (relative_delay): the heatmap has one row per departure airport of
    the airline's non-cancelled, non-diverted flights, each airport once,
    and every airport's [mean_delay] is finite. *)
Theorem relative_delay_airports (df : frame) (a : string) :
  NoDup (map (fun x => fst (fst x)) (relative_delay df a)) /\
  (forall ap, In ap (map (fun x => fst (fst x)) (relative_delay df a)) <->
     exists r, In r df /\ airline_operational a r = true /\ dep_airport r = ap) /\
  (forall ap md dr, In (ap, md, dr) (relative_delay df a) -> exists q, md = Fin q).
Proof.
  unfold relative_delay. rewrite map_map. simpl. rewrite map_id. split; [|split].
  - apply group_keys_NoDup.
  - intro ap. rewrite group_keys_In. split.
    + intros [r [Hr Hk]]. apply filter_In in Hr as [Hr Ha]. eauto.
    + intros [r [Hr [Ha Hk]]]. exists r. split; [apply filter_In; auto|exact Hk].
  - intros ap md dr H. apply in_map_iff in H as [k [E Hk]].
    injection E as _ <- _.
    apply (group_of_nonempty _ String.leb) in Hk.
    unfold mean, num_div. rewrite length_map, (qnat_pos _ Hk). eauto.
Qed.
